(** * pytest_mh.conn: processes, connections and shells

    A shallow embedding of [pytest_mh/conn/__init__.py].

    - Python [str] values are [string]s (sequences of characters).
    - A [dict] is an association list in insertion order with pairwise
      distinct keys.
    - Methods with side effects are functions in a state-and-exception monad
      over a [World] that holds the interpreter-wide counter [Process._genid],
      the records handed to the logger, the operations asked of the transport
      and the connected sessions.
    - The library functions the module calls but does not define
      ([textwrap.dedent], [textwrap.indent], [MultihostLogger.colorize]) and
      the transport are parameters of the development. *)

From Stdlib Require Import String Ascii List ZArith Bool Arith Lia.
From Stdlib Require Import DecimalString Sorted.
Import ListNotations.

Local Open Scope list_scope.
Local Open Scope string_scope.

(** ** Characters and strings *)

Definition LF : ascii := "010"%char.
Definition TAB : ascii := "009"%char.
Definition SPACE : ascii := "032"%char.
Definition SQ : ascii := "039"%char.
Definition DQ : ascii := "034"%char.
Definition BSLASH : ascii := "092"%char.
Definition DOLLAR : ascii := "036"%char.
Definition BQUOTE : ascii := "096"%char.
Definition EQUALS : ascii := "061"%char.

Definition nl : string := String LF EmptyString.

Definition char_in (a : ascii) (s : string) : bool :=
  existsb (Ascii.eqb a) (list_ascii_of_string s).

Definition between (lo hi : nat) (a : ascii) : bool :=
  Nat.leb lo (nat_of_ascii a) && Nat.leb (nat_of_ascii a) hi.

Definition is_upper (a : ascii) : bool := between 65 90 a.
Definition is_lower (a : ascii) : bool := between 97 122 a.
Definition is_digit (a : ascii) : bool := between 48 57 a.
Definition is_alpha (a : ascii) : bool := is_upper a || is_lower a.

Definition string_forallb (p : ascii -> bool) (s : string) : bool :=
  forallb p (list_ascii_of_string s).

Definition string_is_empty (s : string) : bool :=
  match s with EmptyString => true | String _ _ => false end.

(** [s.replace(old, new)] for a one-character [old]. *)
Fixpoint replace_char (old : ascii) (new : string) (s : string) : string :=
  match s with
  | EmptyString => EmptyString
  | String a t =>
      if Ascii.eqb a old then new ++ replace_char old new t
      else String a (replace_char old new t)
  end.

(** [sep.join(lines)] *)
Definition join (sep : string) (lines : list string) : string :=
  String.concat sep lines.

(** ** Python objects that get stringified

    Environment values and [argv] elements are typed [Any] and only ever
    passed to [str()].  An object is [None], a [bool], an [int], a [str], or
    any other object, which is represented by what [str()] returns for it. *)

Inductive PyVal : Type :=
| PyNone
| PyBool (b : bool)
| PyInt (n : Z)
| PyStr (s : string)
| PyObject (rendering : string).

Definition str (v : PyVal) : string :=
  match v with
  | PyNone => "None"
  | PyBool true => "True"
  | PyBool false => "False"
  | PyInt n => NilZero.string_of_int (Z.to_int n)
  | PyStr s => s
  | PyObject rendering => rendering
  end.

(** A [dict[str, Any]] in insertion order. *)
Definition Dict : Type := list (string * PyVal).

Definition is_dict (d : Dict) : Prop := NoDup (map fst d).

(** ** shlex

    [shlex.quote] of the Python standard library:
    [_find_unsafe = re.compile(r'[^\w@%+=:,./-]', re.ASCII).search]. *)

Definition is_word_char (a : ascii) : bool :=
  is_alpha a || is_digit a || Ascii.eqb a "_"%char.

Definition is_safe_char (a : ascii) : bool :=
  is_word_char a || char_in a "@%+=:,./-".

Definition escaped_quote : string :=
  String SQ (String DQ (String SQ (String DQ (String SQ EmptyString)))).

Definition shlex_quote (s : string) : string :=
  if string_is_empty s then String SQ (String SQ EmptyString)
  else if string_forallb is_safe_char s then s
  else String SQ (replace_char SQ escaped_quote s) ++ String SQ EmptyString.

(** [shlex.join(argv)] *)
Definition shlex_join (argv : list string) : string :=
  join " " (map shlex_quote argv).

(** ** Shell *)

Record Shell : Type := mkShell {
  name : string;
  shell_command : string;
  build_command_line : string -> option string -> Dict -> string
}.

Module Bash.

Definition shell_command : string := "/usr/bin/bash -c".

(** [Bash._add_cwd_and_env] *)
Definition _add_cwd_and_env (script : string) (cwd : option string) (env : Dict)
  : string :=
  let out := EmptyString in
  let out :=
    fold_left
      (fun out kv => out ++ ("export " ++ fst kv ++ "=" ++ shlex_quote (str (snd kv)) ++ nl))
      env out in
  let out :=
    match cwd with
    | Some d => out ++ ("cd " ++ shlex_quote d ++ nl)
    | None => out
    end in
  let out := if string_is_empty out then out else out ++ nl in
  out ++ script.

(** [Bash._escape_single_quotes] *)
Definition _escape_single_quotes (command : string) : string :=
  replace_char SQ escaped_quote command.

(** [Bash.build_command_line] *)
Definition build_command_line (script : string) (cwd : option string) (env : Dict)
  : string :=
  let full_script := _add_cwd_and_env script cwd env in
  let escaped_script := _escape_single_quotes full_script in
  shell_command ++ " '" ++ escaped_script ++ "'".

Definition shell : Shell := mkShell "bash" shell_command build_command_line.

End Bash.

Module Powershell.

Definition shell_command : string := "powershell -NonInteractive -Command".

(** [Powershell._add_cwd_and_env] *)
Definition _add_cwd_and_env (script : string) (cwd : option string) (env : Dict)
  : string :=
  let out := EmptyString in
  let out :=
    fold_left
      (fun out kv => out ++ ("$Env:" ++ fst kv ++ " = " ++ shlex_quote (str (snd kv)) ++ nl))
      env out in
  let out :=
    match cwd with
    | Some d => out ++ ("cd " ++ shlex_quote d ++ nl)
    | None => out
    end in
  let out := if string_is_empty out then out else out ++ nl in
  out ++ script.

(** [Powershell._escape_quotes] *)
Definition _escape_quotes (command : string) : string :=
  replace_char DQ (String BSLASH (String DQ EmptyString))
    (replace_char SQ "''" command).

(** [Powershell.build_command_line] *)
Definition build_command_line (script : string) (cwd : option string) (env : Dict)
  : string :=
  let full_script := _add_cwd_and_env script cwd env in
  let escaped_script := _escape_quotes full_script in
  shell_command ++ " '" ++ escaped_script ++ "'".

Definition shell : Shell := mkShell "powershell" shell_command build_command_line.

End Powershell.

(** ** The POSIX shell that receives the command line

    What happens to the command line once the transport hands it to the
    remote side is not part of the module: a POSIX shell splits it into
    words and [bash -c] runs the script.  This is the fragment of the Shell
    Command Language (XCU 2.2 Quoting, 2.3 Token Recognition, the [export]
    special built-in) needed to follow the lines [_add_cwd_and_env] writes:
    one simple command per call, quoting with backslash, single and double
    quotes, no expansions.  A construct outside the fragment ([None]) is
    never interpreted as something else.  What is particular to bash (the
    names it reserves, POSIX mode, what it reads from the environment when
    it starts, the [echo] built-in) follows the Bash Reference Manual. *)

Module Sh.

Inductive mode : Type := Plain | PlainEsc | Single | Double | DoubleEsc.

Definition is_blank (a : ascii) : bool := Ascii.eqb a SPACE || Ascii.eqb a TAB.

(** Operators, expansions, patterns and reserved characters: outside the
    fragment when they occur unquoted. *)
Definition is_meta (a : ascii) : bool := char_in a "|&;<>()$`*?[#~{}!".

Definition push (a : ascii) (cur : option string) : option string :=
  match cur with
  | None => Some (String a EmptyString)
  | Some w => Some (w ++ String a EmptyString)
  end.

Definition open (cur : option string) : option string :=
  match cur with
  | None => Some EmptyString
  | Some w => Some w
  end.

Definition flush (cur : option string) (acc : list string) : list string :=
  match cur with
  | None => acc
  | Some w => (acc ++ [w])%list
  end.

(** Reads one simple command: the words after quote removal and the text
    after the newline that ends it. *)
Fixpoint lex (m : mode) (cur : option string) (acc : list string) (s : string)
  : option (list string * string) :=
  match s with
  | EmptyString =>
      match m with
      | Plain => Some (flush cur acc, EmptyString)
      | _ => None
      end
  | String a t =>
      match m with
      | Plain =>
          if Ascii.eqb a LF then Some (flush cur acc, t)
          else if is_blank a then lex Plain None (flush cur acc) t
          else if Ascii.eqb a SQ then lex Single (open cur) acc t
          else if Ascii.eqb a DQ then lex Double (open cur) acc t
          else if Ascii.eqb a BSLASH then lex PlainEsc cur acc t
          else if is_meta a then None
          else lex Plain (push a cur) acc t
      | PlainEsc =>
          if Ascii.eqb a LF then lex Plain cur acc t
          else lex Plain (push a cur) acc t
      | Single =>
          if Ascii.eqb a SQ then lex Plain cur acc t
          else lex Single (push a cur) acc t
      | Double =>
          if Ascii.eqb a DQ then lex Plain cur acc t
          else if Ascii.eqb a BSLASH then lex DoubleEsc cur acc t
          else if Ascii.eqb a DOLLAR || Ascii.eqb a BQUOTE then None
          else lex Double (push a cur) acc t
      | DoubleEsc =>
          if Ascii.eqb a LF then lex Double cur acc t
          else if Ascii.eqb a DOLLAR || Ascii.eqb a BQUOTE
                  || Ascii.eqb a DQ || Ascii.eqb a BSLASH
          then lex Double (push a cur) acc t
          else lex Double (push a (push BSLASH cur)) acc t
      end
  end.

Definition simple_command (s : string) : option (list string * string) :=
  lex Plain None [] s.

(** Shell variables: name and value, latest assignment first. *)
Definition Env : Type := list (string * string).

Fixpoint getenv (k : string) (env : Env) : option string :=
  match env with
  | [] => None
  | (k', v) :: rest => if String.eqb k k' then Some v else getenv k rest
  end.

(** XBD 3.230 Name: underscores, digits and letters, not starting with a
    digit. *)
Definition is_name (s : string) : bool :=
  match s with
  | EmptyString => false
  | String a t =>
      (is_alpha a || Ascii.eqb a "_"%char) && string_forallb is_word_char t
  end.

(** Splits a word at its first [=]. *)
Fixpoint split_eq (w : string) : option (string * string) :=
  match w with
  | EmptyString => None
  | String a t =>
      if Ascii.eqb a EQUALS then Some (EmptyString, t)
      else match split_eq t with
           | Some (n, v) => Some (String a n, v)
           | None => None
           end
  end.

(** Variables bash makes read-only when it starts. *)
Definition readonly_names : list string :=
  ["BASHOPTS"; "BASH_VERSINFO"; "EUID"; "PPID"; "SHELLOPTS"; "UID"].

(** Variables whose value bash computes, resets after every command, or
    checks on assignment: what a script reads from them is not what was
    assigned. *)
Definition computed_names : list string :=
  ["_"; "COMP_WORDBREAKS"; "DIRSTACK"; "EPOCHREALTIME"; "EPOCHSECONDS";
   "FUNCNAME"; "GROUPS"; "HISTCMD"; "LINENO"; "OPTIND"; "PIPESTATUS";
   "RANDOM"; "SECONDS"; "SRANDOM"].

Definition name_in (n : string) (names : list string) : bool :=
  existsb (String.eqb n) names.

Definition is_readonly (n : string) : bool := name_in n readonly_names.

(** Names bash keeps for itself: the read-only ones, the computed ones and
    every name that starts with [BASH]. *)
Definition is_reserved (n : string) : bool :=
  is_readonly n || name_in n computed_names || String.prefix "BASH" n.


(** [POSIXLY_CORRECT] is set: bash runs in POSIX mode. *)
Definition posix_mode (env : Env) : bool :=
  match getenv "POSIXLY_CORRECT" env with
  | Some _ => true
  | None => false
  end.

(** One operand of [export].  [name=word] assigns when the name is
    assignable.  A word that is not an identifier is rejected with a
    diagnostic and changes nothing.  A read-only name is refused: the
    variable keeps its value, and in POSIX mode the shell exits ([None]).
    Assigning another reserved name is outside the fragment ([None]).
    [name] alone only marks the variable. *)
Definition export_arg (env : Env) (w : string) : option Env :=
  match split_eq w with
  | Some (n, v) =>
      if negb (is_name n) then Some env
      else if is_readonly n then (if posix_mode env then None else Some env)
      else if is_reserved n then None
      else Some ((n, v) :: env)
  | None => Some env
  end.

Definition export_args (args : list string) (env : Env) : option Env :=
  fold_left
    (fun acc w => match acc with Some e => export_arg e w | None => None end)
    args (Some env).

(** *** Parameter expansion

    Words may hold [$name], outside quotes or inside double quotes. *)

Inductive pmode : Type :=
| PM (m : mode)
| PParam (quoted : bool) (name : string).

Inductive fed : Type :=
| More (m : pmode) (cur : option string) (acc : list string)
| Done (words : list string)
| Bad.

(** Characters of a value that field splitting (with the default [IFS]) or
    pathname expansion would act on. *)
Definition is_split_or_glob (a : ascii) : bool :=
  Ascii.eqb a SPACE || Ascii.eqb a TAB || Ascii.eqb a LF
  || char_in a "*?[" || Ascii.eqb a BSLASH.

(** The word in progress after [$name] is replaced.  Reading a reserved name
    is outside the fragment; an unset name expands to nothing; outside
    quotes the value must be one that field splitting and pathname
    expansion leave alone, and [IFS] must not have been assigned. *)
Definition expand (env : Env) (quoted : bool) (n : string) (cur : option string)
  : option (option string) :=
  if string_is_empty n || is_reserved n then None
  else
    match getenv n env with
    | None => Some (if quoted then open cur else cur)
    | Some v =>
        if quoted
        then Some (match cur with
                   | None => Some v
                   | Some w => Some (w ++ v)
                   end)
        else
          match getenv "IFS" env with
          | Some _ => None
          | None =>
              if string_forallb (fun a => negb (is_split_or_glob a)) v
              then Some (if string_is_empty v then cur
                         else match cur with
                              | None => Some v
                              | Some w => Some (w ++ v)
                              end)
              else None
          end
    end.

(** One character read in a quoting mode: as in [lex], and [$] starts a
    parameter. *)
Definition feed_basic (m : mode) (cur : option string) (acc : list string)
           (a : ascii) : fed :=
  match m with
  | Plain =>
      if Ascii.eqb a LF then Done (flush cur acc)
      else if is_blank a then More (PM Plain) None (flush cur acc)
      else if Ascii.eqb a SQ then More (PM Single) (open cur) acc
      else if Ascii.eqb a DQ then More (PM Double) (open cur) acc
      else if Ascii.eqb a BSLASH then More (PM PlainEsc) cur acc
      else if Ascii.eqb a DOLLAR then More (PParam false EmptyString) cur acc
      else if is_meta a then Bad
      else More (PM Plain) (push a cur) acc
  | PlainEsc =>
      if Ascii.eqb a LF then More (PM Plain) cur acc
      else More (PM Plain) (push a cur) acc
  | Single =>
      if Ascii.eqb a SQ then More (PM Plain) cur acc
      else More (PM Single) (push a cur) acc
  | Double =>
      if Ascii.eqb a DQ then More (PM Plain) cur acc
      else if Ascii.eqb a BSLASH then More (PM DoubleEsc) cur acc
      else if Ascii.eqb a DOLLAR then More (PParam true EmptyString) cur acc
      else if Ascii.eqb a BQUOTE then Bad
      else More (PM Double) (push a cur) acc
  | DoubleEsc =>
      if Ascii.eqb a LF then More (PM Double) cur acc
      else if Ascii.eqb a DOLLAR || Ascii.eqb a BQUOTE
              || Ascii.eqb a DQ || Ascii.eqb a BSLASH
      then More (PM Double) (push a cur) acc
      else More (PM Double) (push a (push BSLASH cur)) acc
  end.

Definition feed (env : Env) (m : pmode) (cur : option string) (acc : list string)
           (a : ascii) : fed :=
  match m with
  | PM m' => feed_basic m' cur acc a
  | PParam quoted n =>
      if is_word_char a && negb (string_is_empty n && is_digit a)
      then More (PParam quoted (n ++ String a EmptyString)) cur acc
      else
        match expand env quoted n cur with
        | Some cur' => feed_basic (if quoted then Double else Plain) cur' acc a
        | None => Bad
        end
  end.

(** Reads one simple command with its parameters expanded. *)
Fixpoint lexp (env : Env) (m : pmode) (cur : option string) (acc : list string)
         (s : string) : option (list string * string) :=
  match s with
  | EmptyString =>
      match m with
      | PM Plain => Some (flush cur acc, EmptyString)
      | PParam false n =>
          match expand env false n cur with
          | Some cur' => Some (flush cur' acc, EmptyString)
          | None => None
          end
      | _ => None
      end
  | String a t =>
      match feed env m cur acc a with
      | More m' cur' acc' => lexp env m' cur' acc' t
      | Done words => Some (words, t)
      | Bad => None
      end
  end.

Definition command (env : Env) (s : string) : option (list string * string) :=
  lexp env (PM Plain) None [] s.



(** The operands the [echo] built-in prints as they are: no option, no
    backslash, no newline. *)
Definition echo_plain (args : list string) : bool :=
  match args with
  | [] => true
  | first :: _ =>
      negb (String.prefix "-" first)
      && forallb (string_forallb
                    (fun a => negb (Ascii.eqb a BSLASH || Ascii.eqb a LF))) args
  end.

(** Runs a script of empty lines, [export] and [echo] commands to its end
    and gives the lines written to stdout. *)
Fixpoint run (fuel : nat) (script : string) (env : Env) : option (list string) :=
  match fuel with
  | O => None
  | S fuel' =>
      if string_is_empty script then Some []
      else
        match command env script with
        | Some ([], rest) => run fuel' rest env
        | Some (cmd :: args, rest) =>
            if String.eqb cmd "export"
            then match export_args args env with
                 | Some env' => run fuel' rest env'
                 | None => None
                 end
            else if String.eqb cmd "echo"
            then if echo_plain args
                 then match run fuel' rest env with
                      | Some lines => Some (String.concat " " args :: lines)
                      | None => None
                      end
                 else None
            else None
        | None => None
        end
  end.

(** The command line as the login shell of the remote side sees it: the
    words [/usr/bin/bash], [-c] and one script. *)
Definition bash_c (command_line : string) : option string :=
  match simple_command command_line with
  | Some ([prog; flag; script], EmptyString) =>
      if String.eqb prog "/usr/bin/bash" && String.eqb flag "-c"
      then Some script else None
  | _ => None
  end.

(** Characters that stand for themselves outside quotes. *)
Definition is_literal (a : ascii) : bool :=
  negb (Ascii.eqb a LF || is_blank a || Ascii.eqb a SQ || Ascii.eqb a DQ
        || Ascii.eqb a BSLASH || is_meta a).

(** Variables of the environment bash acts on while it starts: options to
    switch on, a file to run first, the field separators (which it does not
    inherit). *)
Definition startup_names : list string :=
  ["BASHOPTS"; "BASH_ENV"; "IFS"; "SHELLOPTS"].

(** The variables bash starts with, from the environment [env0]; an
    environment that changes how bash starts is outside the fragment. *)
Definition boot (env0 : Env) : option Env :=
  if forallb (fun kv => negb (name_in (fst kv) startup_names)) env0
  then Some env0 else None.


(** Executing [command_line] from the environment [env0] runs to the end
    and writes [lines] to stdout. *)
Definition stdout_lines (command_line : string) (env0 : Env)
  : option (list string) :=
  match bash_c command_line, boot env0 with
  | Some full, Some env1 => run (S (String.length full)) full env1
  | _, _ => None
  end.

End Sh.

(** ** More of [str] *)

(** [str.isspace] on one character (code points below 256). *)
Definition is_space (a : ascii) : bool :=
  between 9 13 a || between 28 32 a
  || Nat.eqb (nat_of_ascii a) 133 || Nat.eqb (nat_of_ascii a) 160.

Fixpoint lstrip (s : string) : string :=
  match s with
  | EmptyString => EmptyString
  | String a t => if is_space a then lstrip t else s
  end.

Fixpoint rstrip (s : string) : string :=
  match s with
  | EmptyString => EmptyString
  | String a t =>
      match rstrip t with
      | EmptyString => if is_space a then EmptyString else String a EmptyString
      | t' => String a t'
      end
  end.

(** [s.strip()] *)
Definition strip (s : string) : string := rstrip (lstrip s).

(** [str.lower] on one character (code points below 256). *)
Definition lower_char (a : ascii) : ascii :=
  if is_upper a || between 192 214 a || between 216 222 a
  then ascii_of_nat (nat_of_ascii a + 32)
  else a.

(** [s.lower()] *)
Fixpoint lower (s : string) : string :=
  match s with
  | EmptyString => EmptyString
  | String a t => String (lower_char a) (lower t)
  end.

(** [x in xs] for a list of strings. *)
Definition str_in (x : string) (xs : list string) : bool :=
  existsb (String.eqb x) xs.

(** [d[k] = v] on a dict in insertion order: an existing key keeps its
    place. *)
Fixpoint dict_set {V : Type} (k : string) (v : V) (d : list (string * V))
  : list (string * V) :=
  match d with
  | [] => [(k, v)]
  | (k', v') :: rest =>
      if String.eqb k k' then (k', v) :: rest else (k', v') :: dict_set k v rest
  end.

Definition dict_update {V : Type} (d extra : list (string * V)) : list (string * V) :=
  fold_left (fun d kv => dict_set (fst kv) (snd kv) d) extra d.

(** Formatting an [int] in an f-string. *)
Definition fmt_int (n : Z) : string := str (PyInt n).

(** ** Collaborators *)

(** [textwrap.dedent] and [textwrap.indent]. *)
Class Textwrap : Type := {
  dedent : string -> string;
  indent : string -> string -> string
}.

Inductive Style : Type := BRIGHT | BLUE | GREEN | RED.

(** [MultihostLogger.colorize], a rendering helper. *)
Class Logger : Type := {
  colorize : string -> list Style -> string
}.

(** ** ProcessLogLevel *)

Inductive ProcessLogLevel : Type := Silent | Short | Full | Error.

Definition ProcessLogLevel_eqb (a b : ProcessLogLevel) : bool :=
  match a, b with
  | Silent, Silent | Short, Short | Full, Full | Error, Error => true
  | _, _ => false
  end.

(** ** ProcessError *)

Module ProcessError.

Record t : Type := mk {
  message : string;
  id : nat;
  command : string;
  rc : Z;
  cwd : option string;
  env : Dict;
  input : option string;
  stdout : string;
  stderr : string;
  stdout_lines : list string;
  stderr_lines : list string
}.

Section Init.
Context {tw : Textwrap}.

Definition spaces (n : nat) : string :=
  string_of_list_ascii (repeat SPACE n).

(** The local [dumps] of [ProcessError.__init__]. *)
Definition dumps (value : option string) : string :=
  match value with
  | None => EmptyString
  | Some v => if string_is_empty v then EmptyString else nl ++ indent v (spaces 20)
  end.

Definition __init__ (id : nat) (command : string) (rc : Z) (cwd : option string)
           (env : Dict) (input : option string) (stdout stderr : list string) : t :=
  let pretty_env :=
    fold_left (fun acc kv => acc ++ (fst kv ++ "=" ++ str (snd kv) ++ nl))
              env EmptyString in
  let str_stdout := join nl stdout in
  let str_stderr := join nl stderr in
  let margin := spaces 16 in
  let message :=
    dedent
      (nl ++ margin ++ "Command #" ++ fmt_int (Z.of_nat id)
          ++ " exited with return code " ++ fmt_int rc ++ ":" ++ nl
          ++ margin ++ "  Command:" ++ dumps (Some command) ++ nl
          ++ margin ++ "  CWD:" ++ dumps cwd ++ nl
          ++ margin ++ "  Env:" ++ dumps (Some (strip pretty_env)) ++ nl
          ++ margin ++ "  Output:" ++ dumps (Some str_stdout) ++ nl
          ++ margin ++ "  Error output:" ++ dumps (Some str_stderr) ++ nl
          ++ margin) in
  mk message id command rc cwd env input str_stdout str_stderr stdout stderr.
End Init.

End ProcessError.

(** ** Exceptions *)

Inductive Exn : Type :=
| RuntimeError (msg : string)
| ValueError (msg : string)
| ConnectionError (msg : string)
| ProcessErrorExn (e : ProcessError.t).

(** ** ProcessResult *)

Module ProcessResult.

Record t : Type := mk {
  rc : Z;
  stdout : string;
  stderr : string;
  stdout_lines : list string;
  stderr_lines : list string;
  error : option ProcessError.t
}.

Definition __init__ (rc : Z) (stdout stderr : list string)
           (error : option ProcessError.t) : t :=
  mk rc (join nl stdout) (join nl stderr) stdout stderr error.

(** [ProcessResult.throw]: the exception it raises and the object after
    the call. *)
Definition throw (self : t) : Exn * t :=
  match error self with
  | None => (ValueError "No error is set.", self)
  | Some e => (ProcessErrorExn e, self)
  end.

End ProcessResult.

(** ** The world outside a process object *)

Inductive LogLevel : Type := INFO | ERROR.

Inductive LogVal : Type :=
| LStr (s : string)
| LOptStr (s : option string)
| LDict (d : Dict)
| LAny (v : PyVal).

(** One call of [logger.info] or [logger.error]; [data] is [extra["data"]]. *)
Record LogRecord : Type := mkLogRecord {
  level : LogLevel;
  msg : string;
  data : option (list (string * LogVal))
}.

(** What is asked of the transport, oldest first. *)
Inductive TransportOp : Type :=
| OpConnect (conn : nat)
| OpDisconnect (conn : nat)
| OpStart (pid : nat) (command_line : string) (input : option string)
| OpWait (pid : nat).

Record World : Type := mkWorld {
  genid : nat;                          (* next value of [Process._genid] *)
  environ : list (string * string);     (* [os.environ] *)
  log : list LogRecord;
  transport : list TransportOp
}.

(** The transport: whether a session to the host of a connection can be
    established, and what a started command leaves behind once its output is
    drained: return code, lines of stdout, lines of stderr. *)
Class Transport : Type := {
  reachable : nat -> bool;
  remote_result : nat -> string -> option string -> Z * list string * list string
}.

Inductive Outcome (A : Type) : Type :=
| Return (a : A)
| Raise (e : Exn).
Arguments Return {A} a.
Arguments Raise {A} e.

(** Computations that read and change the world and may raise. *)
Definition M (A : Type) : Type := World -> Outcome A * World.

Definition ret {A : Type} (a : A) : M A := fun w => (Return a, w).

Definition raise {A : Type} (e : Exn) : M A := fun w => (Raise e, w).

Definition bind {A B : Type} (c : M A) (k : A -> M B) : M B :=
  fun w =>
    match c w with
    | (Return a, w') => k a w'
    | (Raise e, w') => (Raise e, w')
    end.

Notation "x <- c1 ;; c2" := (bind c1 (fun x => c2))
  (at level 61, c1 at next level, right associativity).
Notation "c1 ;; c2" := (bind c1 (fun _ => c2))
  (at level 61, right associativity).

Definition when (b : bool) (c : M unit) : M unit := if b then c else ret tt.

(** [next(Process._genid)] *)
Definition next_genid : M nat :=
  fun w => (Return (genid w),
            mkWorld (S (genid w)) (environ w) (log w) (transport w)).

(** [os.getenv(key, default)] *)
Definition os_getenv (key default : string) : M string :=
  fun w =>
    (Return (match Sh.getenv key (environ w) with
             | Some v => v
             | None => default
             end), w).

Definition emit (r : LogRecord) : M unit :=
  fun w => (Return tt, mkWorld (genid w) (environ w) (log w ++ [r])%list (transport w)).

(** [logger.info(msg, extra={"data": data})] *)
Definition logger_info (msg : string) (data : option (list (string * LogVal))) : M unit :=
  emit (mkLogRecord INFO msg data).

(** [logger.error(msg, extra={"data": data})] *)
Definition logger_error (msg : string) (data : option (list (string * LogVal))) : M unit :=
  emit (mkLogRecord ERROR msg data).

Definition ask (op : TransportOp) : M unit :=
  fun w => (Return tt, mkWorld (genid w) (environ w) (log w) (transport w ++ [op])%list).

Definition asked : M (list TransportOp) := fun w => (Return (transport w), w).

(** ** Process *)

Inductive Phase : Type := CREATED | RUNNING | COMPLETED.

Module Process.

Record t : Type := mk {
  id : nat;
  command : string;
  cwd : option string;
  env : Dict;
  input : option string;
  shell : Shell;
  log_level : ProcessLogLevel;
  blocking_call : bool;
  additional_log_data : Dict;
  full_command_line : string
}.

Section Methods.
Context {tw : Textwrap} {lg : Logger} {tr : Transport}.

(** [Process.__init__] *)
Definition __init__ (command : string) (cwd : option string) (env : option Dict)
           (input : option string) (shell : Shell) (log_level : ProcessLogLevel)
           (blocking_call : bool) (additional_log_data : option Dict) : M t :=
  n <- next_genid ;;
  let id := n + 1 in
  let command := strip (dedent command) in
  let env := match env with Some e => e | None => [] end in
  let additional_log_data :=
    match additional_log_data with Some d => d | None => [] end in
  let full_command_line := build_command_line shell command cwd env in
  debug <- os_getenv "MH_CONNECTION_DEBUG" "no" ;;
  let log_level :=
    if str_in (lower debug) ["true"; "yes"; "1"] then Full else log_level in
  ret (mk id command cwd env input shell log_level blocking_call
          additional_log_data full_command_line).

(** Modelled from the spec: the state machine CREATED -> (run) -> RUNNING
    -> (wait) -> COMPLETED of section 4.2, for the abstract property
    [in_progress], whose implementations are in the transport modules.
    The phase of a process is read off the operations asked of the
    transport. *)
Definition phase (pid : nat) (ops : list TransportOp) : Phase :=
  fold_left
    (fun ph op =>
       match op with
       | OpStart pid' _ _ => if Nat.eqb pid pid' then RUNNING else ph
       | OpWait pid' => if Nat.eqb pid pid' then COMPLETED else ph
       | _ => ph
       end)
    ops CREATED.

Definition in_progress (self : t) : M bool :=
  ops <- asked ;;
  ret (match phase (id self) ops with RUNNING => true | _ => false end).

(** Modelled from the spec: the abstract method [_run], "start via the
    transport": the literal command line is handed to the transport
    together with the content of standard input. *)
Definition _run (self : t) : M unit :=
  ask (OpStart (id self) (full_command_line self) (input self)).

(** Modelled from the spec: the abstract method [_wait] of section 4.2:
    drains stdout and stderr into line sequences, collects the return
    code and builds the [ProcessResult], which carries the error value
    captured from the process (section 3: id, command, rc, cwd, env,
    stdin payload, stdout lines, stderr lines). *)
Definition _wait (self : t) : M ProcessResult.t :=
  ask (OpWait (id self)) ;;
  let '(rc, stdout, stderr) :=
    remote_result (id self) (full_command_line self) (input self) in
  ret (ProcessResult.__init__ rc stdout stderr
         (Some (ProcessError.__init__ (id self) (command self) rc (cwd self)
                  (env self) (input self) stdout stderr))).

Definition __msg_id (self : t) : string :=
  colorize ("#" ++ fmt_int (Z.of_nat (id self))) [BRIGHT; BLUE].

Definition __msg_rc (rc : Z) : string :=
  if Z.eqb rc 0 then colorize (fmt_int rc) [BRIGHT; GREEN]
  else colorize (fmt_int rc) [BRIGHT; RED].

Definition __msg_execution (self : t) : string :=
  colorize "Executing command" [BRIGHT] ++ " " ++ __msg_id self.

Definition __msg_completed_sync (rc : Z) : string :=
  "Previous command completed with exit code " ++ __msg_rc rc.

Definition __msg_completed_async (self : t) (rc : Z) : string :=
  colorize "Command " [BRIGHT] ++ __msg_id self
    ++ colorize " completed with exit code " [BRIGHT] ++ __msg_rc rc.

(** The dict [{**self.additional_log_data, "Shell": ..., "Command": ...,
    "Input": ..., "Working directory": ..., "Extra environment": ...}]. *)
Definition context_data (self : t) : list (string * LogVal) :=
  dict_update
    (dict_update [] (map (fun kv => (fst kv, LAny (snd kv))) (additional_log_data self)))
    [("Shell", LStr (shell_command (shell self)));
     ("Command", LStr (command self));
     ("Input", LOptStr (input self));
     ("Working directory", LOptStr (cwd self));
     ("Extra environment", LDict (env self))].

Definition output_data (result : ProcessResult.t) : list (string * LogVal) :=
  [("Output", LStr (ProcessResult.stdout result));
   ("Error output", LStr (ProcessResult.stderr result))].

(** [Process.run] *)
Definition run (self : t) : M t :=
  when (match log_level self with Short | Full => true | _ => false end)
       (logger_info (__msg_execution self) (Some (context_data self))) ;;
  _run self ;;
  ret self.

(** [Process.wait] *)
Definition wait (self : t) (raise_on_error : bool) : M ProcessResult.t :=
  started <- in_progress self ;;
  if negb started
  then raise (RuntimeError "Calling wait on process that has not yet started.")
  else
    result <- _wait self ;;
    let rc := ProcessResult.rc result in
    when (ProcessLogLevel_eqb (log_level self) Error && negb (Z.eqb rc 0))
         (logger_error (__msg_completed_async self rc)
            (Some (dict_update (context_data self) (output_data result)))) ;;
    (if blocking_call self
     then match log_level self with
          | Short => logger_info (__msg_completed_sync rc) None
          | Full => logger_info (__msg_completed_sync rc) (Some (output_data result))
          | _ => ret tt
          end
     else match log_level self with
          | Short => logger_info (__msg_completed_async self rc)
                       (Some (context_data self))
          | Full => logger_info (__msg_completed_async self rc)
                      (Some (dict_update (context_data self) (output_data result)))
          | _ => ret tt
          end) ;;
    if raise_on_error && negb (Z.eqb rc 0)
    then raise (fst (ProcessResult.throw result))
    else ret result.

(** [Process.__enter__] *)
Definition __enter__ (self : t) : M t := ret self.

(** [Process.__exit__]: [wait] with its default [raise_on_error=True];
    the result is dropped. *)
Definition __exit__ (self : t) : M unit :=
  wait self true ;; ret tt.

End Methods.

End Process.

(** ** Connection *)

(** What a caller may pass where a command or an argument vector is expected:
    a [list], or an object [v] that is not a list. *)
Inductive PyArg : Type :=
| ArgVal (v : PyVal)
| ArgList (argv : list PyVal).

(** [isinstance(x, str)], with the string when it holds. *)
Definition as_str (x : PyArg) : option string :=
  match x with
  | ArgVal (PyStr s) => Some s
  | _ => None
  end.

(** [isinstance(x, list)], with the items when it holds. *)
Definition as_list (x : PyArg) : option (list PyVal) :=
  match x with
  | ArgList argv => Some argv
  | _ => None
  end.

Module Connection.

Record t : Type := mk {
  conn_id : nat;
  shell : Shell
}.

Section Methods.
Context {tw : Textwrap} {lg : Logger} {tr : Transport}.

(** Modelled from the spec: the abstract property [connected] of section
    4.3, the connected flag: the session is open after a connect that
    no disconnect followed. *)
Definition connected (self : t) : M bool :=
  ops <- asked ;;
  ret (fold_left
         (fun b op =>
            match op with
            | OpConnect c => if Nat.eqb c (conn_id self) then true else b
            | OpDisconnect c => if Nat.eqb c (conn_id self) then false else b
            | _ => b
            end)
         ops false).

(** Modelled from the spec: the abstract method [connect] of section 4.3,
    idempotent, raising [ConnectionError] when the session cannot be
    established. *)
Definition connect (self : t) : M unit :=
  up <- connected self ;;
  if up then ret tt
  else if reachable (conn_id self) then ask (OpConnect (conn_id self))
  else raise (ConnectionError "Unable to connect to the host.").

(** Modelled from the spec: the abstract method [disconnect] of section
    4.3, idempotent. *)
Definition disconnect (self : t) : M unit :=
  up <- connected self ;;
  when up (ask (OpDisconnect (conn_id self))).

(** Modelled from the spec: the abstract method [create_process] of
    section 4.3: binds the command descriptor to the connection's shell
    and returns a process that is not started; the process is built by
    [Process.__init__]. *)
Definition create_process (self : t) (command : string) (cwd : option string)
           (env : option Dict) (input : option string)
           (log_level : ProcessLogLevel) (blocking_call : bool) : M Process.t :=
  Process.__init__ command cwd env input (shell self) log_level blocking_call None.

(** [Connection.async_run] *)
Definition async_run (self : t) (command : PyArg) (cwd : option string)
           (env : option Dict) (input : option string)
           (log_level : ProcessLogLevel) : M Process.t :=
  match as_str command with
  | None =>
      raise (ValueError
        "Parameter command is not a string, did you mean async_exec() instead of async_run()?")
  | Some command =>
      connect self ;;
      process <- create_process self command cwd env input log_level false ;;
      Process.run process ;;
      ret process
  end.

(** [Connection.run] *)
Definition run (self : t) (command : PyArg) (cwd : option string)
           (env : option Dict) (input : option string)
           (log_level : ProcessLogLevel) (raise_on_error : bool)
  : M ProcessResult.t :=
  match as_str command with
  | None =>
      raise (ValueError
        "Parameter command is not a string, did you mean exec() instead of run()?")
  | Some command =>
      connect self ;;
      process <- create_process self command cwd env input log_level true ;;
      Process.run process ;;
      Process.wait process raise_on_error
  end.

(** [Connection.async_exec] *)
Definition async_exec (self : t) (argv : PyArg) (cwd : option string)
           (env : option Dict) (input : option string)
           (log_level : ProcessLogLevel) : M Process.t :=
  match as_list argv with
  | None =>
      raise (ValueError
        "Parameter argv is not a list, did you mean async_run() instead of async_exec()?")
  | Some argv =>
      let argv := map str argv in
      let command := shlex_join argv in
      async_run self (ArgVal (PyStr command)) cwd env input log_level
  end.

(** [Connection.exec] *)
Definition exec (self : t) (argv : PyArg) (cwd : option string)
           (env : option Dict) (input : option string)
           (log_level : ProcessLogLevel) (raise_on_error : bool)
  : M ProcessResult.t :=
  match as_list argv with
  | None =>
      raise (ValueError
        "Parameter argv is not a list, did you mean run() instead of exec()?")
  | Some argv =>
      let argv := map str argv in
      let command := shlex_join argv in
      run self (ArgVal (PyStr command)) cwd env input log_level raise_on_error
  end.

(** [Connection.expect] *)
Definition expect (self : t) (expect_script : string) (verbose : bool)
           (raise_on_error : bool) : M ProcessResult.t :=
  let args := if verbose then [PyStr "-d"] else [] in
  exec self (ArgList (PyStr "/bin/expect" :: args)) None None
       (Some expect_script) Full raise_on_error.

(** [Connection.expect_nobody] *)
Definition expect_nobody (self : t) (expect_script : string) (verbose : bool)
           (raise_on_error : bool) : M ProcessResult.t :=
  let args := if verbose then " -d" else EmptyString in
  run self
      (ArgVal (PyStr ("su --shell /bin/sh nobody -c " ++ String DQ "/bin/expect"
                        ++ args ++ String DQ EmptyString)))
      None None (Some expect_script) Full raise_on_error.

(** [Connection.__enter__] *)
Definition __enter__ (self : t) : M t :=
  connect self ;; ret self.

(** [Connection.__exit__] *)
Definition __exit__ (self : t) : M unit :=
  disconnect self.

End Methods.

End Connection.

(** ** Concurrent construction of processes

    Threads build processes through their own connections.  The constructor
    touches shared state in its first statement only,
    [self.id = next(self._genid) + 1], and that is one call into
    [itertools.count], which the interpreter runs without interleaving
    another thread.  A concurrent execution is therefore a sequence of draws
    from the counter, each by some thread. *)

Module Threads.

(** The ids handed out along a schedule, oldest first, each with the
    thread that drew it. *)
Fixpoint draws (schedule : list nat) (w : World) : list (nat * nat) :=
  match schedule with
  | [] => []
  | thread :: rest =>
      match next_genid w with
      | (Return n, w') => (thread, n + 1) :: draws rest w'
      | (Raise _, _) => []
      end
  end.

Definition ids (schedule : list nat) (w : World) : list nat :=
  map snd (draws schedule w).

End Threads.

(** ** Observing the script *)



(** ** Observing the log *)

(** [d.get(k)] *)
Fixpoint dict_get {V : Type} (k : string) (d : list (string * V)) : option V :=
  match d with
  | [] => None
  | (k', v) :: rest => if String.eqb k k' then Some v else dict_get k rest
  end.

(** The records written between the world [w] and the later world [w']. *)
Definition logged (w w' : World) : list LogRecord :=
  skipn (List.length (log w)) (log w').

Definition is_error (r : LogRecord) : bool :=
  match level r with ERROR => true | INFO => false end.

Definition error_records (w w' : World) : list LogRecord :=
  filter is_error (logged w w').

(** The records [Process.wait] writes for a result, in order. *)
Definition wait_records {lg : Logger} (self : Process.t) (result : ProcessResult.t)
  : list LogRecord :=
  let rc := ProcessResult.rc result in
  let full := Some (dict_update (Process.context_data self) (Process.output_data result)) in
  ((if ProcessLogLevel_eqb (Process.log_level self) Error && negb (Z.eqb rc 0)
    then [mkLogRecord ERROR (Process.__msg_completed_async self rc) full]
    else [])
   ++
   (match Process.log_level self, Process.blocking_call self with
    | Short, true => [mkLogRecord INFO (Process.__msg_completed_sync rc) None]
    | Full, true => [mkLogRecord INFO (Process.__msg_completed_sync rc)
                                 (Some (Process.output_data result))]
    | Short, false => [mkLogRecord INFO (Process.__msg_completed_async self rc)
                                   (Some (Process.context_data self))]
    | Full, false => [mkLogRecord INFO (Process.__msg_completed_async self rc) full]
    | _, _ => []
    end))%list.

(** The result [_wait] builds for a process, from what the transport
    reports. *)
Definition result_of {tw : Textwrap} {tr : Transport} (self : Process.t)
  : ProcessResult.t :=
  let '(rc, stdout, stderr) :=
    remote_result (Process.id self) (Process.full_command_line self)
                  (Process.input self) in
  ProcessResult.__init__ rc stdout stderr
    (Some (ProcessError.__init__ (Process.id self) (Process.command self) rc
             (Process.cwd self) (Process.env self) (Process.input self)
             stdout stderr)).

(** [needle in haystack] *)
Definition mentions (needle haystack : string) : bool :=
  match String.index 0 needle haystack with
  | Some _ => true
  | None => false
  end.

(** Code points below 128. *)
Definition is_ascii (a : ascii) : bool := Nat.ltb (nat_of_ascii a) 128.

(** [v] is [w] with some of its small letters written as capitals. *)
Inductive any_case : string -> string -> Prop :=
| any_case_nil : any_case EmptyString EmptyString
| any_case_same (a : ascii) (w v : string) :
    any_case w v -> any_case (String a w) (String a v)
| any_case_capital (a : ascii) (w v : string) :
    is_lower a = true -> any_case w v ->
    any_case (String a w) (String (ascii_of_nat (nat_of_ascii a - 32)) v).

(** [MH_CONNECTION_DEBUG] is set to true, yes or 1 in some letter case. *)
Definition debug_requested (w : World) : Prop :=
  exists v word,
    Sh.getenv "MH_CONNECTION_DEBUG" (environ w) = Some v
    /\ In word ["true"; "yes"; "1"]
    /\ any_case word v.

(** ** Sample collaborators and inputs *)

Module Sample.

(** Stand-ins for [textwrap] and for a logger without colours. *)
Definition textwrap : Textwrap :=
  {| dedent := fun text => text; indent := fun text prefix => prefix ++ text |}.

Definition logger : Logger := {| colorize := fun text _ => text |}.

(** A transport on which every command prints [boom] to stderr and exits
    with 3. *)
Definition failing : Transport :=
  {| reachable := fun _ => true;
     remote_result := fun _ _ _ => (3%Z, [], ["boom"]) |}.

(** A transport on which every command prints [hello] and exits with 0. *)
Definition succeeding : Transport :=
  {| reachable := fun _ => true;
     remote_result := fun _ _ _ => (0%Z, ["hello"], []) |}.

Definition boot : World := mkWorld 0 [] [] [].

Definition debugging : World := mkWorld 0 [("MH_CONNECTION_DEBUG", "YeS")] [] [].

Definition conn : Connection.t := Connection.mk 1 Bash.shell.

Definition proc (level : ProcessLogLevel) (blocking : bool) : Process.t :=
  Process.mk 1 "exit 3" None [] None Bash.shell level blocking []
             (build_command_line Bash.shell "exit 3" None []).

(** The world once [proc] has been started. *)
Definition started : World :=
  mkWorld 1 [] [] [OpConnect 1; OpStart 1 (Process.full_command_line (proc Silent true)) None].

End Sample.

(** ** Observing processes and connections *)

(** The process [Process.__init__] builds in the world [w]. *)
Definition new_process {tw : Textwrap} (w : World) (command : string)
           (cwd : option string) (env : option Dict) (input : option string)
           (shell : Shell) (level : ProcessLogLevel) (blocking : bool)
           (extra : option Dict) : Process.t :=
  Process.mk (genid w + 1) (strip (dedent command)) cwd
    (match env with Some e => e | None => [] end) input shell
    (if str_in
          (lower (match Sh.getenv "MH_CONNECTION_DEBUG" (environ w) with
                  | Some v => v
                  | None => "no"
                  end))
          ["true"; "yes"; "1"]
     then Full else level)
    blocking
    (match extra with Some d => d | None => [] end)
    (build_command_line shell (strip (dedent command)) cwd
       (match env with Some e => e | None => [] end)).

(** The world after the counter was drawn from once. *)
Definition after_init (w : World) : World :=
  mkWorld (S (genid w)) (environ w) (log w) (transport w).

(** The records [Process.run] writes. *)
Definition run_records {lg : Logger} (self : Process.t) : list LogRecord :=
  match Process.log_level self with
  | Short | Full =>
      [mkLogRecord INFO (Process.__msg_execution self)
                   (Some (Process.context_data self))]
  | _ => []
  end.

(** The world after [Process.run]. *)
Definition after_run {lg : Logger} (self : Process.t) (w : World) : World :=
  mkWorld (genid w) (environ w) (log w ++ run_records self)%list
          (transport w
             ++ [OpStart (Process.id self) (Process.full_command_line self)
                         (Process.input self)])%list.

(** The five keys every context payload sets after the additional data. *)
Definition context_keys (self : Process.t) : list (string * LogVal) :=
  [("Shell", LStr (shell_command (Process.shell self)));
   ("Command", LStr (Process.command self));
   ("Input", LOptStr (Process.input self));
   ("Working directory", LOptStr (Process.cwd self));
   ("Extra environment", LDict (Process.env self))].

(** [s.count(c)] for a character. *)
Fixpoint count_char (c : ascii) (s : string) : nat :=
  match s with
  | EmptyString => 0
  | String a t => (if Ascii.eqb a c then 1 else 0) + count_char c t
  end.

(** Every double quote of [s] comes right after a backslash;
    [after_backslash] tells whether the character before [s] is one. *)
Fixpoint dq_escaped (after_backslash : bool) (s : string) : bool :=
  match s with
  | EmptyString => true
  | String a t =>
      if Ascii.eqb a DQ then after_backslash && dq_escaped false t
      else dq_escaped (Ascii.eqb a BSLASH) t
  end.

Definition starts_with_space (s : string) : bool :=
  match s with
  | EmptyString => false
  | String a _ => is_space a
  end.

Fixpoint ends_with_space (s : string) : bool :=
  match s with
  | EmptyString => false
  | String a EmptyString => is_space a
  | String _ t => ends_with_space t
  end.

Module Fixtures.

(** A transport that cannot reach any host. *)
Definition unreachable : Transport :=
  {| reachable := fun _ => false;
     remote_result := fun _ _ _ => (0%Z, [], []) |}.

(** A process whose additional log data tries to set the key [Shell]. *)
Definition tagged : Process.t :=
  Process.mk 1 "exit 3" None [] None Bash.shell Full false
             [("Shell", PyStr "zsh"); ("Test", PyStr "test_login")]
             (build_command_line Bash.shell "exit 3" None []).

(** The world once the sample connection is connected. *)
Definition connected : World := mkWorld 0 [] [] [OpConnect 1].

End Fixtures.

(** * Properties *)

(** ** Strings and dicts *)

Lemma append_assoc (a b c : string) : (a ++ b) ++ c = a ++ (b ++ c).
Proof.
  induction a as [|x a IH]; simpl; [reflexivity | now rewrite IH].
Qed.

Lemma append_empty_r (a : string) : a ++ EmptyString = a.
Proof.
  induction a as [|x a IH]; simpl; [reflexivity | now rewrite IH].
Qed.

Lemma skipn_length_app {A : Type} (l l' : list A) :
  skipn (List.length l) (l ++ l')%list = l'.
Proof.
  induction l as [|x l IH]; simpl; auto.
Qed.

Lemma dict_get_set_same {V : Type} (k : string) (v : V) (d : list (string * V)) :
  dict_get k (dict_set k v d) = Some v.
Proof.
  induction d as [|[k' v'] d IH]; simpl.
  - now rewrite String.eqb_refl.
  - destruct (String.eqb k k') eqn:E; simpl; rewrite E; auto.
Qed.

Lemma dict_get_set_other {V : Type} (k k' : string) (v : V) (d : list (string * V)) :
  k <> k' -> dict_get k (dict_set k' v d) = dict_get k d.
Proof.
  intros Hne. induction d as [|[k2 v2] d IH]; simpl.
  - apply String.eqb_neq in Hne. now rewrite Hne.
  - destruct (String.eqb k' k2) eqn:E; simpl.
    + apply String.eqb_eq in E. subst k2.
      apply String.eqb_neq in Hne. now rewrite Hne.
    + now rewrite IH.
Qed.

(** ** Process.wait *)

Section ProcessProperties.
Context {tw : Textwrap} {lg : Logger} {tr : Transport}.

Lemma in_progress_world (p : Process.t) (w : World) :
  snd (Process.in_progress p w) = w.
Proof. reflexivity. Qed.

Lemma in_progress_phase (p : Process.t) (w : World) (b : bool) :
  fst (Process.in_progress p w) = Return b ->
  Process.in_progress p w = (Return b, w).
Proof.
  unfold Process.in_progress, bind, asked, ret. simpl. intros H. now rewrite H.
Qed.

(** What [wait] does on a started process: it asks the transport to wait,
    writes [wait_records], and raises or returns the result. *)
Lemma wait_running (p : Process.t) (raise_on_error : bool) (w : World) :
  fst (Process.in_progress p w) = Return true ->
  Process.wait p raise_on_error w =
    (if raise_on_error && negb (Z.eqb (ProcessResult.rc (result_of p)) 0)
     then Raise (fst (ProcessResult.throw (result_of p)))
     else Return (result_of p),
     mkWorld (genid w) (environ w) (log w ++ wait_records p (result_of p))%list
             (transport w ++ [OpWait (Process.id p)])%list).
Proof.
  intros Hrun. apply in_progress_phase in Hrun.
  unfold Process.wait, bind at 1. rewrite Hrun. cbn [negb].
  unfold Process._wait, result_of, wait_records.
  destruct (remote_result (Process.id p) (Process.full_command_line p) (Process.input p))
    as [[rc out] err].
  unfold bind, ask, ret, when, logger_error, logger_info, emit, raise.
  cbn [ProcessResult.rc ProcessResult.__init__ genid environ log transport].
  destruct (Process.log_level p), (Process.blocking_call p), (Z.eqb rc 0), raise_on_error;
    cbn [ProcessLogLevel_eqb negb andb genid environ log transport app];
    rewrite ?app_nil_r, <- ?app_assoc; reflexivity.
Qed.

Lemma result_of_error (p : Process.t) :
  ProcessResult.error (result_of p) =
    Some (ProcessError.__init__ (Process.id p) (Process.command p)
            (ProcessResult.rc (result_of p)) (Process.cwd p) (Process.env p)
            (Process.input p) (ProcessResult.stdout_lines (result_of p))
            (ProcessResult.stderr_lines (result_of p))).
Proof.
  unfold result_of.
  destruct (remote_result (Process.id p) (Process.full_command_line p) (Process.input p))
    as [[rc out] err].
  reflexivity.
Qed.

Lemma error_records_app (w : World) (g : nat) (e : list (string * string))
      (rs : list LogRecord) (ops : list TransportOp) :
  error_records w (mkWorld g e (log w ++ rs)%list ops) = filter is_error rs.
Proof.
  unfold error_records, logged. cbn [log]. now rewrite skipn_length_app.
Qed.

(** C2 (as amended): on a started process, [wait] writes an error-level
    record exactly when the log level of the process is [Error] and the
    return code is not 0: then it writes one, which carries the shell, the
    command, the input, the working directory, the environment, stdout and
    stderr; at the levels [Silent], [Short] and [Full], and when the return
    code is 0, it writes none. *)
Theorem wait_error_record_iff_error_level
        (p : Process.t) (raise_on_error : bool) (w : World) :
  fst (Process.in_progress p w) = Return true ->
  let result := result_of p in
  let rc := ProcessResult.rc result in
  let payload := dict_update (Process.context_data p) (Process.output_data result) in
  error_records w (snd (Process.wait p raise_on_error w)) =
    (if ProcessLogLevel_eqb (Process.log_level p) Error && negb (Z.eqb rc 0)
     then [mkLogRecord ERROR (Process.__msg_completed_async p rc) (Some payload)]
     else [])
  /\ dict_get "Shell" payload = Some (LStr (shell_command (Process.shell p)))
  /\ dict_get "Command" payload = Some (LStr (Process.command p))
  /\ dict_get "Input" payload = Some (LOptStr (Process.input p))
  /\ dict_get "Working directory" payload = Some (LOptStr (Process.cwd p))
  /\ dict_get "Extra environment" payload = Some (LDict (Process.env p))
  /\ dict_get "Output" payload = Some (LStr (ProcessResult.stdout result))
  /\ dict_get "Error output" payload = Some (LStr (ProcessResult.stderr result)).
Proof.
  intros Hrun result rc payload. split.
  - rewrite (wait_running p raise_on_error w Hrun). cbn [snd].
    rewrite error_records_app. unfold wait_records. fold result. fold rc.
    rewrite filter_app.
    destruct (Process.log_level p), (Process.blocking_call p), (Z.eqb rc 0);
      reflexivity.
  - unfold payload, Process.context_data, Process.output_data, dict_update.
    cbn [fold_left fst snd].
    repeat split;
      repeat (rewrite dict_get_set_other by discriminate);
      apply dict_get_set_same.
Qed.

(** C3: on a started process, [wait(raise_on_error)] raises exactly when
    [raise_on_error] is true and the return code is not 0, and what it raises
    is the captured [ProcessError]; in every other case it returns the
    result, whose [error] is that [ProcessError], populated with the id,
    command, return code, working directory, environment, input, stdout and
    stderr of the process, also when the return code is 0. *)
Theorem wait_raises_iff_requested_and_failed
        (p : Process.t) (raise_on_error : bool) (w : World) :
  fst (Process.in_progress p w) = Return true ->
  let result := result_of p in
  let rc := ProcessResult.rc result in
  exists e : ProcessError.t,
    ProcessResult.error result = Some e
    /\ (ProcessError.id e = Process.id p
        /\ ProcessError.command e = Process.command p
        /\ ProcessError.rc e = rc
        /\ ProcessError.cwd e = Process.cwd p
        /\ ProcessError.env e = Process.env p
        /\ ProcessError.input e = Process.input p
        /\ ProcessError.stdout_lines e = ProcessResult.stdout_lines result
        /\ ProcessError.stderr_lines e = ProcessResult.stderr_lines result
        /\ ProcessError.stdout e = ProcessResult.stdout result
        /\ ProcessError.stderr e = ProcessResult.stderr result)
    /\ ((exists x, fst (Process.wait p raise_on_error w) = Raise x)
        <-> raise_on_error = true /\ rc <> 0%Z)
    /\ (raise_on_error = true /\ rc <> 0%Z ->
        fst (Process.wait p raise_on_error w) = Raise (ProcessErrorExn e))
    /\ (~ (raise_on_error = true /\ rc <> 0%Z) ->
        fst (Process.wait p raise_on_error w) = Return result).
Proof.
  intros Hrun result rc.
  eexists. split; [apply result_of_error|].
  split.
  { subst rc result. unfold result_of.
    destruct (remote_result (Process.id p) (Process.full_command_line p)
                (Process.input p)) as [[rc0 out] err].
    cbn. repeat split; reflexivity. }
  rewrite (wait_running p raise_on_error w Hrun). cbn [fst].
  unfold ProcessResult.throw. rewrite result_of_error.
  fold result. fold rc.
  destruct raise_on_error; destruct (Z.eqb_spec rc 0) as [E|E];
    cbn [andb negb fst];
    (split; [split|split]).
  all: try (intros [x Hx]; discriminate).
  all: try (intros [H1 H2]; first [discriminate | contradiction]).
  all: try (intros _; reflexivity).
  - intros _. split; [reflexivity | assumption].
  - intros _. eexists. reflexivity.
  - intros H. exfalso. apply H. split; [reflexivity | assumption].
Qed.

(** C6: [wait] on a process that is not in progress raises [RuntimeError]
    and nothing else happens: the transport is not asked to wait, no result
    is built and no record is written. *)
Theorem wait_before_run_raises
        (p : Process.t) (raise_on_error : bool) (w : World) :
  fst (Process.in_progress p w) = Return false ->
  Process.wait p raise_on_error w =
    (Raise (RuntimeError "Calling wait on process that has not yet started."), w).
Proof.
  intros Hrun. apply in_progress_phase in Hrun.
  unfold Process.wait, bind at 1. now rewrite Hrun.
Qed.

(** C9: leaving the [with] block of a started process calls [wait] with
    [raise_on_error=True]: when the command exits with a return code other
    than 0, [__exit__] raises the captured [ProcessError]. *)
Theorem exit_raises_on_failure (p : Process.t) (w : World) :
  fst (Process.in_progress p w) = Return true ->
  ProcessResult.rc (result_of p) <> 0%Z ->
  Process.__exit__ p = (Process.wait p true ;; ret tt)
  /\ exists e : ProcessError.t,
      ProcessResult.error (result_of p) = Some e
      /\ fst (Process.wait p true w) = Raise (ProcessErrorExn e)
      /\ fst (Process.__exit__ p w) = Raise (ProcessErrorExn e).
Proof.
  intros Hrun Hrc. split; [reflexivity|].
  eexists. split; [apply result_of_error|].
  unfold Process.__exit__, bind.
  rewrite (wait_running p true w Hrun).
  unfold ProcessResult.throw. rewrite result_of_error.
  apply Z.eqb_neq in Hrc. rewrite Hrc. cbn. auto.
Qed.

End ProcessProperties.

(** ** ProcessResult.throw *)

(** C4: [throw] always raises: [ValueError] exactly when no error is set,
    the stored error otherwise; it leaves the result as it was, so a second
    call raises the same error. *)
Theorem throw_always_raises_same (r : ProcessResult.t) :
  snd (ProcessResult.throw r) = r
  /\ fst (ProcessResult.throw r) =
       match ProcessResult.error r with
       | None => ValueError "No error is set."
       | Some e => ProcessErrorExn e
       end
  /\ (fst (ProcessResult.throw r) = ValueError "No error is set."
      <-> ProcessResult.error r = None)
  /\ ProcessResult.throw (snd (ProcessResult.throw r)) = ProcessResult.throw r.
Proof.
  unfold ProcessResult.throw.
  destruct (ProcessResult.error r) as [e|] eqn:E; cbn [fst snd]; rewrite ?E;
    repeat split; auto; discriminate.
Qed.

(** ** Connection: argument checks *)

Section ConnectionProperties.
Context {tw : Textwrap} {lg : Logger} {tr : Transport}.

(** C7: [run] and [async_run] raise [ValueError] for every argument that is
    not a string, [exec] and [async_exec] for every argument that is not a
    list; the four messages differ, and each names the sibling method to call
    instead. *)
Theorem wrong_argument_type_raises
        (c : Connection.t) (arg : PyArg) (cwd : option string) (env : option Dict)
        (input : option string) (level : ProcessLogLevel) (raise_on_error : bool)
        (w : World) :
  let m_run := "Parameter command is not a string, did you mean exec() instead of run()?" in
  let m_async_run :=
    "Parameter command is not a string, did you mean async_exec() instead of async_run()?" in
  let m_exec := "Parameter argv is not a list, did you mean run() instead of exec()?" in
  let m_async_exec :=
    "Parameter argv is not a list, did you mean async_run() instead of async_exec()?" in
  (as_str arg = None ->
   fst (Connection.run c arg cwd env input level raise_on_error w)
     = Raise (ValueError m_run)
   /\ fst (Connection.async_run c arg cwd env input level w)
     = Raise (ValueError m_async_run))
  /\ (as_list arg = None ->
      fst (Connection.exec c arg cwd env input level raise_on_error w)
        = Raise (ValueError m_exec)
      /\ fst (Connection.async_exec c arg cwd env input level w)
        = Raise (ValueError m_async_exec))
  /\ NoDup [m_run; m_async_run; m_exec; m_async_exec]
  /\ mentions "exec()" m_run = true
  /\ mentions "async_exec()" m_async_run = true
  /\ mentions "run()" m_exec = true
  /\ mentions "async_run()" m_async_exec = true.
Proof.
  intros m_run m_async_run m_exec m_async_exec.
  split; [|split; [|split]].
  - intros H. unfold Connection.run, Connection.async_run. rewrite H. split; reflexivity.
  - intros H. unfold Connection.exec, Connection.async_exec. rewrite H. split; reflexivity.
  - repeat constructor; simpl; intuition discriminate.
  - repeat split; reflexivity.
Qed.

(** C10: a call of [run], [async_run], [exec] or [async_exec] with an
    argument of the wrong type changes nothing: the world after the call is
    the world before it, so the transport was not asked to connect, the
    connection is in the state it was in, and the counter of process ids was
    not advanced. *)
Theorem wrong_argument_type_changes_nothing
        (c : Connection.t) (arg : PyArg) (cwd : option string) (env : option Dict)
        (input : option string) (level : ProcessLogLevel) (raise_on_error : bool)
        (w : World) :
  let unchanged (w' : World) :=
    w' = w /\ transport w' = transport w /\ genid w' = genid w
    /\ fst (Connection.connected c w') = fst (Connection.connected c w) in
  (as_str arg = None ->
   unchanged (snd (Connection.run c arg cwd env input level raise_on_error w))
   /\ unchanged (snd (Connection.async_run c arg cwd env input level w)))
  /\ (as_list arg = None ->
      unchanged (snd (Connection.exec c arg cwd env input level raise_on_error w))
      /\ unchanged (snd (Connection.async_exec c arg cwd env input level w))).
Proof.
  intros unchanged. subst unchanged. cbv beta.
  split; intros H.
  - unfold Connection.run, Connection.async_run. rewrite H.
    cbn [raise snd]. repeat split.
  - unfold Connection.exec, Connection.async_exec. rewrite H.
    cbn [raise snd]. repeat split.
Qed.

End ConnectionProperties.

(** ** Process.__init__: the debug override *)

Lemma lower_char_capital (a : ascii) :
  is_lower a = true -> lower_char (ascii_of_nat (nat_of_ascii a - 32)) = a.
Proof.
  destruct a as [[] [] [] [] [] [] [] []]; intros H;
    first [discriminate H | reflexivity].
Qed.

Lemma lower_char_inv (a b : ascii) :
  lower_char a = b -> is_ascii b = true ->
  a = b \/ (is_lower b = true /\ a = ascii_of_nat (nat_of_ascii b - 32)).
Proof.
  intros H Hb. subst b.
  destruct a as [[] [] [] [] [] [] [] []];
    first [discriminate Hb | left; reflexivity | right; split; reflexivity].
Qed.

Lemma lower_any_case (w v : string) :
  any_case w v -> lower w = w -> lower v = w.
Proof.
  induction 1 as [|a w v Hwv IH|a w v Ha Hwv IH]; intros Hw.
  - reflexivity.
  - cbn in Hw |- *. injection Hw as Ha Hw'. rewrite Ha, (IH Hw'). reflexivity.
  - cbn in Hw |- *. injection Hw as _ Hw'.
    rewrite (lower_char_capital a Ha), (IH Hw'). reflexivity.
Qed.

Lemma any_case_lower (v w : string) :
  lower v = w -> string_forallb is_ascii w = true -> any_case w v.
Proof.
  revert w. induction v as [|a v IH]; intros w Hw Hascii.
  - cbn in Hw. subst w. constructor.
  - cbn in Hw. subst w. cbn in Hascii. apply andb_prop in Hascii as [Ha Hv].
    destruct (lower_char_inv a (lower_char a) eq_refl Ha) as [E|[Hl E]].
    + rewrite <- E. constructor. now apply IH.
    + rewrite E at 2. constructor; [assumption | now apply IH].
Qed.

(** The test of [Process.__init__] holds exactly for the values that are
    true, yes or 1 in some letter case. *)
Lemma debug_flag_iff (v : string) :
  str_in (lower v) ["true"; "yes"; "1"] = true
  <-> exists word, In word ["true"; "yes"; "1"] /\ any_case word v.
Proof.
  split.
  - unfold str_in. cbn [existsb]. rewrite !orb_true_iff, !String.eqb_eq.
    intros [H|[H|[H|H]]]; [| | |discriminate H];
      eexists; (split; [|apply (any_case_lower v _ H); reflexivity]);
      cbn; auto.
  - intros [word [Hin Hany]].
    assert (Hl : lower word = word).
    { cbn in Hin. destruct Hin as [E|[E|[E|[]]]]; subst word; reflexivity. }
    rewrite (lower_any_case word v Hany Hl).
    cbn in Hin. destruct Hin as [E|[E|[E|[]]]]; subst word; reflexivity.
Qed.

Section InitProperties.
Context {tw : Textwrap}.

Lemma init_returns (command : string) (cwd : option string) (env : option Dict)
      (input : option string) (shell : Shell) (level : ProcessLogLevel)
      (blocking : bool) (extra : option Dict) (w : World) :
  Process.__init__ command cwd env input shell level blocking extra w =
    (Return
       (Process.mk (genid w + 1) (strip (dedent command)) cwd
          (match env with Some e => e | None => [] end) input shell
          (if str_in
                (lower (match Sh.getenv "MH_CONNECTION_DEBUG" (environ w) with
                        | Some v => v
                        | None => "no"
                        end))
                ["true"; "yes"; "1"]
           then Full else level)
          blocking
          (match extra with Some d => d | None => [] end)
          (build_command_line shell (strip (dedent command)) cwd
             (match env with Some e => e | None => [] end))),
     mkWorld (S (genid w)) (environ w) (log w) (transport w)).
Proof. reflexivity. Qed.

(** C8: when [MH_CONNECTION_DEBUG] is set to true, yes or 1 in any letter
    case, the log level of a new process is [Full] whatever [log_level] was
    passed; for any other value, and when the variable is not set, it is the
    [log_level] passed. *)
Theorem debug_override_forces_full
        (command : string) (cwd : option string) (env : option Dict)
        (input : option string) (shell : Shell) (level : ProcessLogLevel)
        (blocking : bool) (extra : option Dict) (w : World) :
  exists p w',
    Process.__init__ command cwd env input shell level blocking extra w = (Return p, w')
    /\ (debug_requested w -> Process.log_level p = Full)
    /\ (~ debug_requested w -> Process.log_level p = level).
Proof.
  rewrite init_returns. do 2 eexists. split; [reflexivity|].
  cbn [Process.log_level]. unfold debug_requested.
  destruct (Sh.getenv "MH_CONNECTION_DEBUG" (environ w)) as [v|] eqn:Ev.
  - destruct (str_in (lower v) ["true"; "yes"; "1"]) eqn:Et.
    + split; [reflexivity|]. intros H. exfalso. apply H.
      apply debug_flag_iff in Et. destruct Et as [word [Hin Hany]].
      exists v, word. auto.
    + split; [|reflexivity]. intros [v' [word [Hv [Hin Hany]]]].
      injection Hv as <-.
      assert (Ht : str_in (lower v) ["true"; "yes"; "1"] = true)
        by (apply debug_flag_iff; eauto).
      rewrite Ht in Et. discriminate.
  - split; [|reflexivity]. intros [v' [word [Hv _]]]. discriminate.
Qed.

(** ** Process ids *)

Lemma draws_above (schedule : list nat) (w : World) :
  Forall (fun i => genid w < i) (Threads.ids schedule w).
Proof.
  revert w. induction schedule as [|t rest IH]; intros w; cbn.
  - constructor.
  - constructor; [lia|].
    eapply Forall_impl; [|apply IH]. cbn. intros i Hi. lia.
Qed.

(** C5: the ids drawn along any schedule of constructions, by whichever
    threads and connections, are strictly increasing in the order of the
    draws and pairwise distinct; one construction is one draw, which takes
    the value after the counter and advances the counter. *)
Theorem process_ids_strictly_increasing (schedule : list nat) (w : World) :
  StronglySorted lt (Threads.ids schedule w)
  /\ NoDup (Threads.ids schedule w)
  /\ List.length (Threads.ids schedule w) = List.length schedule
  /\ forall (thread : nat) (command : string) (cwd : option string)
            (env : option Dict) (input : option string) (shell : Shell)
            (level : ProcessLogLevel) (blocking : bool) (extra : option Dict),
      exists p w',
        Process.__init__ command cwd env input shell level blocking extra w
          = (Return p, w')
        /\ [Process.id p] = Threads.ids [thread] w
        /\ Threads.ids (thread :: schedule) w = Process.id p :: Threads.ids schedule w'.
Proof.
  assert (Hsorted : forall s w0, StronglySorted lt (Threads.ids s w0)).
  { induction s as [|t rest IH]; intros w0; cbn.
    - constructor.
    - constructor; [apply IH|].
      eapply Forall_impl; [|apply draws_above]. cbn. intros i Hi. lia. }
  split; [apply Hsorted|]. split; [|split].
  - generalize (Hsorted schedule w). generalize (Threads.ids schedule w).
    induction 1 as [|x l Hl IH Hx]; constructor; auto.
    intros Hin. rewrite Forall_forall in Hx. specialize (Hx x Hin). lia.
  - unfold Threads.ids. rewrite length_map. revert w.
    induction schedule as [|t rest IH]; intros w; cbn; auto.
  - intros. rewrite init_returns. do 2 eexists. split; [reflexivity|].
    split; reflexivity.
Qed.

End InitProperties.

(** ** Bash.build_command_line under the shell *)

Lemma safe_is_literal (a : ascii) :
  is_safe_char a = true -> Sh.is_literal a = true.
Proof.
  destruct a as [[] [] [] [] [] [] [] []]; intros H;
    first [discriminate H | reflexivity].
Qed.


Lemma lex_literal_char (a : ascii) (cur : option string) (acc : list string) (t : string) :
  Sh.is_literal a = true ->
  Sh.lex Sh.Plain cur acc (String a t) = Sh.lex Sh.Plain (Sh.push a cur) acc t.
Proof.
  unfold Sh.is_literal. intros H. apply negb_true_iff in H.
  repeat (apply orb_false_elim in H; destruct H as [H ?]).
  cbn [Sh.lex]. now repeat match goal with E : _ = false |- _ => rewrite E; clear E end.
Qed.

Lemma lex_literal (s c : string) (acc : list string) (rest : string) :
  string_forallb Sh.is_literal s = true ->
  Sh.lex Sh.Plain (Some c) acc (s ++ rest) = Sh.lex Sh.Plain (Some (c ++ s)) acc rest.
Proof.
  revert c. induction s as [|a s IH]; intros c H.
  - now rewrite append_empty_r.
  - cbn in H. apply andb_prop in H as [Ha Hs].
    cbn [append]. rewrite lex_literal_char by assumption. cbn [Sh.push].
    rewrite IH by assumption. rewrite append_assoc. reflexivity.
Qed.

Lemma lex_literal_start (a : ascii) (s : string) (acc : list string) (rest : string) :
  string_forallb Sh.is_literal (String a s) = true ->
  Sh.lex Sh.Plain None acc (String a s ++ rest)
    = Sh.lex Sh.Plain (Some (String a s)) acc rest.
Proof.
  intros H. cbn in H. apply andb_prop in H as [Ha Hs].
  cbn [append]. rewrite lex_literal_char by assumption. cbn [Sh.push].
  now rewrite lex_literal.
Qed.

(** Inside single quotes, the escaped text followed by the closing quote
    reads back as the text. *)
Lemma lex_single_escaped (s c : string) (acc : list string) (rest : string) :
  Sh.lex Sh.Single (Some c) acc (replace_char SQ escaped_quote s ++ String SQ rest)
    = Sh.lex Sh.Plain (Some (c ++ s)) acc rest.
Proof.
  revert c. induction s as [|a s IH]; intros c.
  - cbn. now rewrite append_empty_r.
  - cbn [replace_char]. destruct (Ascii.eqb a SQ) eqn:E.
    + apply Ascii.eqb_eq in E. subst a.
      unfold escaped_quote at 1. cbn [append]. cbn [Sh.lex]. cbn.
      rewrite IH. rewrite append_assoc. reflexivity.
    + cbn [append Sh.lex]. rewrite E. cbn [Sh.push].
      rewrite IH. rewrite append_assoc. reflexivity.
Qed.























(** ** Instances *)



(** C2 as stated fails at every level other than [Error]: a started process
    whose command exits with 3 leaves no error-level record at the levels
    [Silent], [Short] and [Full]. *)
Lemma wait_failure_without_error_record :
  fst (Process.in_progress (Sample.proc Silent true) Sample.started) = Return true
  /\ ProcessResult.rc
       (@result_of Sample.textwrap Sample.failing (Sample.proc Silent true)) = 3%Z
  /\ error_records Sample.started
       (snd (@Process.wait Sample.textwrap Sample.logger Sample.failing
               (Sample.proc Silent true) true Sample.started)) = []
  /\ error_records Sample.started
       (snd (@Process.wait Sample.textwrap Sample.logger Sample.failing
               (Sample.proc Short true) true Sample.started)) = []
  /\ error_records Sample.started
       (snd (@Process.wait Sample.textwrap Sample.logger Sample.failing
               (Sample.proc Full false) true Sample.started)) = [].
Proof.
  repeat split; reflexivity.
Qed.

Lemma wait_error_record_at_error_level :
  fst (Process.in_progress (Sample.proc Error true) Sample.started) = Return true
  /\ error_records Sample.started
       (snd (@Process.wait Sample.textwrap Sample.logger Sample.failing
               (Sample.proc Error true) true Sample.started))
     = [mkLogRecord ERROR "Command #1 completed with exit code 3"
          (Some [("Shell", LStr "/usr/bin/bash -c");
                 ("Command", LStr "exit 3");
                 ("Input", LOptStr None);
                 ("Working directory", LOptStr None);
                 ("Extra environment", LDict []);
                 ("Output", LStr EmptyString);
                 ("Error output", LStr "boom")])].
Proof.
  split; [reflexivity|].
  exact (proj1 (@wait_error_record_iff_error_level Sample.textwrap Sample.logger
                  Sample.failing (Sample.proc Error true) true Sample.started
                  eq_refl)).
Defined.

Lemma wait_raises_on_failure_sample :
  fst (Process.in_progress (Sample.proc Silent true) Sample.started) = Return true
  /\ exists e : ProcessError.t,
      ProcessError.rc e = 3%Z
      /\ ProcessError.stderr_lines e = ["boom"]
      /\ fst (@Process.wait Sample.textwrap Sample.logger Sample.failing
                (Sample.proc Silent true) true Sample.started)
         = Raise (ProcessErrorExn e)
      /\ exists r : ProcessResult.t,
          ProcessResult.error r = Some e
          /\ fst (@Process.wait Sample.textwrap Sample.logger Sample.failing
                    (Sample.proc Silent true) false Sample.started)
             = Return r.
Proof.
  split; [reflexivity|].
  destruct (@wait_raises_iff_requested_and_failed Sample.textwrap Sample.logger
              Sample.failing (Sample.proc Silent true) true Sample.started eq_refl)
    as [e [He [Hfields [_ [Hraise _]]]]].
  destruct (@wait_raises_iff_requested_and_failed Sample.textwrap Sample.logger
              Sample.failing (Sample.proc Silent true) false Sample.started eq_refl)
    as [e' [He' [_ [_ [_ Hreturn]]]]].
  exists e. split; [|split; [|split]].
  - destruct Hfields as [_ [_ [Hrc _]]]. rewrite Hrc. reflexivity.
  - destruct Hfields as [_ [_ [_ [_ [_ [_ [_ [Herr _]]]]]]]]. rewrite Herr. reflexivity.
  - apply Hraise. split; [reflexivity | discriminate].
  - eexists. split; [exact He|]. apply Hreturn. intros [H _]. discriminate H.
Defined.

Lemma throw_sample :
  fst (ProcessResult.throw (ProcessResult.__init__ 0 ["hello"] [] None))
  = ValueError "No error is set."
  /\ snd (ProcessResult.throw (ProcessResult.__init__ 0 ["hello"] [] None))
     = ProcessResult.__init__ 0 ["hello"] [] None.
Proof.
  destruct (throw_always_raises_same (ProcessResult.__init__ 0 ["hello"] [] None))
    as [Hsame [_ [Hiff _]]].
  split; [apply Hiff; reflexivity | exact Hsame].
Defined.

Lemma wait_before_run_sample :
  fst (Process.in_progress (Sample.proc Full true) Sample.boot) = Return false
  /\ @Process.wait Sample.textwrap Sample.logger Sample.failing
       (Sample.proc Full true) true Sample.boot
     = (Raise (RuntimeError "Calling wait on process that has not yet started."),
        Sample.boot).
Proof.
  split; [reflexivity|].
  exact (@wait_before_run_raises Sample.textwrap Sample.logger Sample.failing
           (Sample.proc Full true) true Sample.boot eq_refl).
Defined.

Lemma exit_raises_sample :
  fst (Process.in_progress (Sample.proc Full false) Sample.started) = Return true
  /\ ProcessResult.rc
       (@result_of Sample.textwrap Sample.failing (Sample.proc Full false)) <> 0%Z
  /\ exists e : ProcessError.t,
      ProcessError.rc e = 3%Z
      /\ fst (@Process.__exit__ Sample.textwrap Sample.logger Sample.failing
                (Sample.proc Full false) Sample.started)
         = Raise (ProcessErrorExn e).
Proof.
  assert (Hrc : ProcessResult.rc
                  (@result_of Sample.textwrap Sample.failing (Sample.proc Full false))
                <> 0%Z) by (vm_compute; discriminate).
  split; [reflexivity|]. split; [exact Hrc|].
  destruct (@exit_raises_on_failure Sample.textwrap Sample.logger Sample.failing
              (Sample.proc Full false) Sample.started eq_refl Hrc)
    as [_ [e [He [_ Hexit]]]].
  exists e. split; [|exact Hexit].
  vm_compute in He. injection He as <-. reflexivity.
Defined.

Lemma wrong_argument_type_raises_sample :
  as_str (ArgVal (PyInt 3)) = None
  /\ as_list (ArgVal (PyStr "ls")) = None
  /\ fst (@Connection.run Sample.textwrap Sample.logger Sample.failing Sample.conn
            (ArgVal (PyInt 3)) None None None Full true Sample.boot)
     = Raise (ValueError
                "Parameter command is not a string, did you mean exec() instead of run()?")
  /\ fst (@Connection.exec Sample.textwrap Sample.logger Sample.failing Sample.conn
            (ArgVal (PyStr "ls")) None None None Full true Sample.boot)
     = Raise (ValueError
                "Parameter argv is not a list, did you mean run() instead of exec()?").
Proof.
  split; [reflexivity|]. split; [reflexivity|]. split.
  - exact (proj1 (proj1 (@wrong_argument_type_raises Sample.textwrap Sample.logger
                           Sample.failing Sample.conn (ArgVal (PyInt 3)) None None None
                           Full true Sample.boot) eq_refl)).
  - exact (proj1 (proj1 (proj2 (@wrong_argument_type_raises Sample.textwrap
                                  Sample.logger Sample.failing Sample.conn
                                  (ArgVal (PyStr "ls")) None None None
                                  Full true Sample.boot)) eq_refl)).
Defined.

Lemma wrong_argument_type_changes_nothing_sample :
  as_str (ArgList [PyStr "ls"]) = None
  /\ as_list (ArgVal PyNone) = None
  /\ snd (@Connection.async_run Sample.textwrap Sample.logger Sample.failing
            Sample.conn (ArgList [PyStr "ls"]) None None None Full Sample.boot)
     = Sample.boot
  /\ genid (snd (@Connection.async_exec Sample.textwrap Sample.logger Sample.failing
                   Sample.conn (ArgVal PyNone) None None None Full Sample.boot))
     = genid Sample.boot.
Proof.
  split; [reflexivity|]. split; [reflexivity|]. split.
  - exact (proj1 (proj2 (proj1 (@wrong_argument_type_changes_nothing Sample.textwrap
                                  Sample.logger Sample.failing Sample.conn
                                  (ArgList [PyStr "ls"]) None None None Full true
                                  Sample.boot) eq_refl))).
  - exact (proj1 (proj2 (proj2 (proj2 (proj2 (@wrong_argument_type_changes_nothing
                                  Sample.textwrap Sample.logger Sample.failing
                                  Sample.conn (ArgVal PyNone) None None None Full true
                                  Sample.boot) eq_refl))))).
Defined.

Lemma debug_override_sample :
  debug_requested Sample.debugging
  /\ ~ debug_requested Sample.boot
  /\ (exists p w',
         @Process.__init__ Sample.textwrap "ls" None None None Bash.shell Silent true None
           Sample.debugging = (Return p, w')
         /\ Process.log_level p = Full)
  /\ (exists p w',
         @Process.__init__ Sample.textwrap "ls" None None None Bash.shell Silent true None
           Sample.boot = (Return p, w')
         /\ Process.log_level p = Silent).
Proof.
  assert (Hyes : debug_requested Sample.debugging).
  { exists "YeS", "yes". split; [reflexivity|]. split; [simpl; tauto|].
    apply (any_case_capital "y" "es" "eS" eq_refl).
    apply any_case_same.
    apply (any_case_capital "s" EmptyString EmptyString eq_refl).
    apply any_case_nil. }
  assert (Hno : ~ debug_requested Sample.boot).
  { intros [v [word [H _]]]. discriminate H. }
  split; [exact Hyes|]. split; [exact Hno|]. split.
  - destruct (@debug_override_forces_full Sample.textwrap "ls" None None None
                Bash.shell Silent true None Sample.debugging)
      as [p [w' [Hinit [Hfull _]]]].
    exists p, w'. split; [exact Hinit | exact (Hfull Hyes)].
  - destruct (@debug_override_forces_full Sample.textwrap "ls" None None None
                Bash.shell Silent true None Sample.boot)
      as [p [w' [Hinit [_ Hkeep]]]].
    exists p, w'. split; [exact Hinit | exact (Hkeep Hno)].
Defined.

(** * Further properties *)

(** ** Shells *)

Lemma lex_shlex_quote_start (v : string) (acc : list string) (rest : string) :
  Sh.lex Sh.Plain None acc (shlex_quote v ++ rest)
    = Sh.lex Sh.Plain (Some v) acc rest.
Proof.
  unfold shlex_quote. destruct v as [|a v].
  - reflexivity.
  - cbn [string_is_empty].
    destruct (string_forallb is_safe_char (String a v)) eqn:Hsafe.
    + apply lex_literal_start. unfold string_forallb in *.
      rewrite forallb_forall in *. intros x Hx. apply safe_is_literal. auto.
    + rewrite append_assoc. cbn [append]. cbn [Sh.lex].
      replace (Ascii.eqb SQ LF) with false by reflexivity.
      replace (Sh.is_blank SQ) with false by reflexivity.
      replace (Ascii.eqb SQ SQ) with true by reflexivity.
      cbn [Sh.open]. apply lex_single_escaped.
Qed.

Lemma lex_shlex_join (args acc : list string) :
  args <> [] ->
  Sh.lex Sh.Plain None acc (shlex_join args) = Some ((acc ++ args)%list, EmptyString).
Proof.
  unfold shlex_join, join. revert acc.
  induction args as [|x args IH]; intros acc Hne; [contradiction|].
  destruct args as [|y args].
  - cbn [map String.concat].
    rewrite <- (append_empty_r (shlex_quote x)).
    rewrite lex_shlex_quote_start. reflexivity.
  - change (String.concat " " (map shlex_quote (x :: y :: args)))
      with (shlex_quote x ++ String SPACE (String.concat " " (map shlex_quote (y :: args)))).
    rewrite lex_shlex_quote_start. cbn [Sh.lex].
    replace (Ascii.eqb SPACE LF) with false by reflexivity.
    replace (Sh.is_blank SPACE) with true by reflexivity.
    cbn [Sh.flush]. rewrite IH by discriminate.
    now rewrite <- app_assoc.
Qed.

(** X1: whatever the script, the working directory and the environment hold,
    the command line of [Bash.build_command_line] is read by a POSIX shell as
    exactly three words: the launcher, [-c], and the script of
    [_add_cwd_and_env], unchanged. *)
Theorem bash_command_line_three_words
        (script : string) (cwd : option string) (env : Dict) :
  Sh.simple_command (Bash.build_command_line script cwd env)
    = Some (["/usr/bin/bash"; "-c"; Bash._add_cwd_and_env script cwd env],
            EmptyString).
Proof.
  unfold Bash.build_command_line, Bash._escape_single_quotes, Sh.simple_command.
  change (Sh.lex Sh.Plain None []
            (Bash.shell_command ++ " '"
               ++ replace_char SQ escaped_quote (Bash._add_cwd_and_env script cwd env)
               ++ "'"))
    with (Sh.lex Sh.Single (Some EmptyString) ["/usr/bin/bash"; "-c"]
            (replace_char SQ escaped_quote (Bash._add_cwd_and_env script cwd env)
               ++ String SQ EmptyString)).
  rewrite lex_single_escaped. reflexivity.
Qed.



Section ExecProperties.
Context {tw : Textwrap} {lg : Logger} {tr : Transport}.

(** X3: [exec] and [async_exec] hand [run] and [async_run] one command
    string, and a POSIX shell splits that string back into [str] of every
    element of [argv], one word each, in order: no element is split, merged
    or altered, whatever characters it holds. *)
Theorem exec_command_splits_into_argv (argv : list PyVal) :
  exists command : string,
    Sh.simple_command command = Some (map str argv, EmptyString)
    /\ (forall c cwd env input level raise_on_error w,
           Connection.exec c (ArgList argv) cwd env input level raise_on_error w
           = Connection.run c (ArgVal (PyStr command)) cwd env input level
                            raise_on_error w)
    /\ (forall c cwd env input level w,
           Connection.async_exec c (ArgList argv) cwd env input level w
           = Connection.async_run c (ArgVal (PyStr command)) cwd env input level w).
Proof.
  exists (shlex_join (map str argv)). split; [|split; reflexivity].
  unfold Sh.simple_command. destruct argv as [|x argv]; [reflexivity|].
  rewrite lex_shlex_join by discriminate. reflexivity.
Qed.

End ExecProperties.

(** ** Process: run, wait and the log *)

Lemma logged_app (w : World) (g : nat) (e : list (string * string))
      (rs : list LogRecord) (ops : list TransportOp) :
  logged w (mkWorld g e (log w ++ rs)%list ops) = rs.
Proof.
  unfold logged. cbn [log]. apply skipn_length_app.
Qed.

Lemma dict_get_absent {V : Type} (k : string) (d : list (string * V)) :
  ~ In k (map fst d) -> dict_get k d = None.
Proof.
  induction d as [|[k' v'] d IH]; intros H; [reflexivity|].
  cbn [dict_get]. destruct (String.eqb_spec k k') as [E|E].
  - exfalso. apply H. left. now subst.
  - apply IH. intros Hin. apply H. now right.
Qed.

(** Updating with a dict: its bindings win, the others stay. *)
Lemma dict_get_update {V : Type} (k : string) (extra d : list (string * V)) :
  NoDup (map fst extra) ->
  dict_get k (dict_update d extra)
    = match dict_get k extra with
      | Some v => Some v
      | None => dict_get k d
      end.
Proof.
  unfold dict_update. revert d.
  induction extra as [|[k' v'] extra IH]; intros d Hd; [reflexivity|].
  cbn [map fst] in Hd. inversion Hd as [|? ? Hnotin Hd']; subst.
  cbn [fold_left fst snd dict_get]. rewrite IH by assumption.
  destruct (String.eqb_spec k k') as [E|E].
  - subst k'. rewrite (dict_get_absent k extra Hnotin).
    apply dict_get_set_same.
  - destruct (dict_get k extra); [reflexivity|].
    now apply dict_get_set_other.
Qed.

Lemma dict_get_map {A B : Type} (f : A -> B) (k : string) (d : list (string * A)) :
  dict_get k (map (fun kv => (fst kv, f (snd kv))) d) = option_map f (dict_get k d).
Proof.
  induction d as [|[k' v'] d IH]; [reflexivity|].
  cbn [map fst snd dict_get]. destruct (String.eqb k k'); [reflexivity | apply IH].
Qed.

Section LoggingProperties.
Context {tw : Textwrap} {lg : Logger} {tr : Transport}.

Lemma process_run_eq (p : Process.t) (w : World) :
  Process.run p w = (Return p, after_run p w).
Proof.
  unfold Process.run, after_run, run_records, bind, when, logger_info, emit,
    Process._run, ask, ret.
  destruct (Process.log_level p); cbn [genid environ log transport];
    rewrite ?app_nil_r; reflexivity.
Qed.

(** X4: [Process.run] returns the process itself, writes one info record
    with the execution context at the levels [Short] and [Full] and nothing
    at [Silent] and [Error], never an error-level record, and leaves the
    counter of process ids alone. *)
Theorem run_writes_execution_record (p : Process.t) (w : World) :
  fst (Process.run p w) = Return p
  /\ logged w (snd (Process.run p w))
     = (match Process.log_level p with
        | Short | Full =>
            [mkLogRecord INFO (Process.__msg_execution p)
                         (Some (Process.context_data p))]
        | Silent | Error => []
        end)
  /\ error_records w (snd (Process.run p w)) = []
  /\ genid (snd (Process.run p w)) = genid w.
Proof.
  rewrite process_run_eq. cbn [fst snd]. unfold after_run.
  rewrite logged_app, error_records_app. unfold run_records.
  destruct (Process.log_level p); repeat split; reflexivity.
Qed.

(** X5: in the context payload of the log records, the keys [Shell],
    [Command], [Input], [Working directory] and [Extra environment] always
    hold the values of the process, also when the additional log data has
    such a key; every other key of the additional log data is passed
    through, and no other key exists. *)
Theorem context_data_lookup (p : Process.t) (k : string) :
  is_dict (Process.additional_log_data p) ->
  dict_get k (Process.context_data p)
    = match dict_get k (context_keys p) with
      | Some v => Some v
      | None => option_map LAny (dict_get k (Process.additional_log_data p))
      end.
Proof.
  intros Hd. unfold Process.context_data. fold (context_keys p).
  rewrite dict_get_update.
  2:{ cbn. repeat constructor; simpl; intuition discriminate. }
  destruct (dict_get k (context_keys p)); [reflexivity|].
  rewrite dict_get_update.
  2:{ rewrite map_map. cbn [fst]. exact Hd. }
  rewrite dict_get_map. cbn [dict_get].
  destruct (dict_get k (Process.additional_log_data p)); reflexivity.
Qed.

(** X6: on a started process [wait] writes at most one record, after the
    records already there; it writes none exactly at the level [Silent], or
    at the level [Error] when the return code is 0. *)
Theorem wait_writes_at_most_one_record
        (p : Process.t) (raise_on_error : bool) (w : World) :
  fst (Process.in_progress p w) = Return true ->
  let w' := snd (Process.wait p raise_on_error w) in
  log w' = (log w ++ logged w w')%list
  /\ List.length (logged w w') <= 1
  /\ (logged w w' = []
      <-> Process.log_level p = Silent
          \/ (Process.log_level p = Error /\ ProcessResult.rc (result_of p) = 0%Z)).
Proof.
  intros Hrun w'. subst w'.
  rewrite (wait_running p raise_on_error w Hrun). cbn [snd].
  rewrite logged_app. cbn [log]. split; [reflexivity|].
  unfold wait_records.
  destruct (Z.eqb_spec (ProcessResult.rc (result_of p)) 0) as [E|E];
    destruct (Process.log_level p), (Process.blocking_call p);
    cbn [ProcessLogLevel_eqb andb negb app List.length];
    (split; [lia|]); split;
      try (intros H; discriminate H);
      try (intros [H|[H _]]; discriminate H);
      try (intros _; reflexivity);
      try (intros _; left; reflexivity);
      try (intros _; right; split; [reflexivity | assumption]);
      try (intros [H|[_ H]]; [discriminate H | contradiction]).
Qed.

End LoggingProperties.

Lemma context_data_lookup_sample :
  is_dict (Process.additional_log_data Fixtures.tagged)
  /\ dict_get "Shell" (Process.context_data Fixtures.tagged)
     = Some (LStr "/usr/bin/bash -c")
  /\ dict_get "Test" (Process.context_data Fixtures.tagged)
     = Some (LAny (PyStr "test_login"))
  /\ dict_get "Output" (Process.context_data Fixtures.tagged) = None.
Proof.
  assert (Hd : is_dict (Process.additional_log_data Fixtures.tagged)).
  { unfold is_dict. cbn. repeat constructor; simpl; intuition discriminate. }
  split; [exact Hd|]. split; [|split].
  - exact (context_data_lookup Fixtures.tagged "Shell" Hd).
  - exact (context_data_lookup Fixtures.tagged "Test" Hd).
  - exact (context_data_lookup Fixtures.tagged "Output" Hd).
Defined.

Lemma wait_writes_at_most_one_record_sample :
  fst (Process.in_progress (Sample.proc Silent true) Sample.started) = Return true
  /\ logged Sample.started
       (snd (@Process.wait Sample.textwrap Sample.logger Sample.failing
               (Sample.proc Silent true) true Sample.started)) = [].
Proof.
  split; [reflexivity|].
  destruct (@wait_writes_at_most_one_record Sample.textwrap Sample.logger
              Sample.failing (Sample.proc Silent true) true Sample.started eq_refl)
    as [_ [_ Hiff]].
  apply Hiff. left. reflexivity.
Defined.

(** ** Process.__init__ *)

Lemma lstrip_start (s : string) : starts_with_space (lstrip s) = false.
Proof.
  induction s as [|a s IH]; [reflexivity|].
  cbn [lstrip]. destruct (is_space a) eqn:E; [exact IH|].
  cbn [starts_with_space]. exact E.
Qed.

Lemma lstrip_fixed (s : string) : starts_with_space s = false -> lstrip s = s.
Proof.
  destruct s as [|a s]; [reflexivity|]. cbn. now intros ->.
Qed.

Lemma rstrip_end (s : string) : ends_with_space (rstrip s) = false.
Proof.
  induction s as [|a s IH]; [reflexivity|].
  cbn [rstrip]. destruct (rstrip s) as [|b r] eqn:E.
  - destruct (is_space a) eqn:Ea; [reflexivity|]. cbn. exact Ea.
  - exact IH.
Qed.

Lemma rstrip_start (s : string) :
  starts_with_space s = false -> starts_with_space (rstrip s) = false.
Proof.
  destruct s as [|a s]; [reflexivity|]. cbn [starts_with_space rstrip].
  intros Ha. destruct (rstrip s); [rewrite Ha|]; exact Ha.
Qed.

Lemma rstrip_fixed (s : string) : rstrip (rstrip s) = rstrip s.
Proof.
  induction s as [|a s IH]; [reflexivity|].
  cbn [rstrip]. destruct (rstrip s) as [|b r] eqn:E.
  - destruct (is_space a) eqn:Ea; [reflexivity|]. cbn. now rewrite Ea.
  - cbn [rstrip] in IH |- *. rewrite IH. reflexivity.
Qed.

Section InitFurther.
Context {tw : Textwrap}.

Lemma init_new_process (command : string) (cwd : option string) (env : option Dict)
      (input : option string) (shell : Shell) (level : ProcessLogLevel)
      (blocking : bool) (extra : option Dict) (w : World) :
  Process.__init__ command cwd env input shell level blocking extra w
    = (Return (new_process w command cwd env input shell level blocking extra),
       after_init w).
Proof. reflexivity. Qed.

(** X7: the command a new process stores never starts or ends with
    whitespace, and stripping it again changes nothing; the command line of
    the process is built by its shell from that stored command. *)
Theorem init_strips_command
        (command : string) (cwd : option string) (env : option Dict)
        (input : option string) (shell : Shell) (level : ProcessLogLevel)
        (blocking : bool) (extra : option Dict) (w : World) :
  exists p w',
    Process.__init__ command cwd env input shell level blocking extra w = (Return p, w')
    /\ starts_with_space (Process.command p) = false
    /\ ends_with_space (Process.command p) = false
    /\ strip (Process.command p) = Process.command p
    /\ Process.full_command_line p
       = build_command_line shell (Process.command p) (Process.cwd p) (Process.env p).
Proof.
  rewrite init_new_process. do 2 eexists. split; [reflexivity|].
  cbn [new_process Process.command Process.full_command_line Process.cwd Process.env].
  unfold strip. repeat split.
  - apply rstrip_start, lstrip_start.
  - apply rstrip_end.
  - rewrite (lstrip_fixed _ (rstrip_start _ (lstrip_start (dedent command)))).
    apply rstrip_fixed.
Qed.

End InitFurther.

Section DebugProperties.
Context {tw : Textwrap} {lg : Logger} {tr : Transport}.

Lemma debug_requested_test (w : World) :
  debug_requested w ->
  str_in (lower (match Sh.getenv "MH_CONNECTION_DEBUG" (environ w) with
                 | Some v => v
                 | None => "no"
                 end))
         ["true"; "yes"; "1"] = true.
Proof.
  intros [v [word [Hv [Hin Hany]]]]. rewrite Hv.
  apply debug_flag_iff. eauto.
Qed.

(** X8: under the debug override a process created with the level [Error]
    runs at [Full]: when its command fails, [wait] writes no error-level
    record, only the one info record. *)
Theorem debug_override_replaces_error_record
        (command : string) (cwd : option string) (env : option Dict)
        (input : option string) (shell : Shell) (blocking : bool)
        (extra : option Dict) (w w2 : World) (raise_on_error : bool) :
  debug_requested w ->
  exists p w',
    Process.__init__ command cwd env input shell Error blocking extra w = (Return p, w')
    /\ (fst (Process.in_progress p w2) = Return true ->
        error_records w2 (snd (Process.wait p raise_on_error w2)) = []
        /\ List.length (logged w2 (snd (Process.wait p raise_on_error w2))) = 1).
Proof.
  intros Hdebug. rewrite init_new_process. do 2 eexists. split; [reflexivity|].
  intros Hrun. rewrite (wait_running _ raise_on_error w2 Hrun). cbn [snd].
  rewrite error_records_app, logged_app. unfold wait_records.
  cbn [new_process Process.log_level Process.blocking_call].
  rewrite (debug_requested_test w Hdebug).
  cbn [ProcessLogLevel_eqb andb app]. destruct blocking; split; reflexivity.
Qed.

End DebugProperties.

Lemma debug_override_replaces_error_record_sample :
  debug_requested Sample.debugging
  /\ exists p w',
      @Process.__init__ Sample.textwrap "exit 3" None None None Bash.shell Error
        true None Sample.debugging = (Return p, w')
      /\ fst (Process.in_progress p Sample.started) = Return true
      /\ error_records Sample.started
           (snd (@Process.wait Sample.textwrap Sample.logger Sample.failing p true
                   Sample.started)) = [].
Proof.
  assert (Hyes : debug_requested Sample.debugging).
  { exists "YeS", "yes". split; [reflexivity|]. split; [simpl; tauto|].
    apply (any_case_capital "y" "es" "eS" eq_refl).
    apply any_case_same.
    apply (any_case_capital "s" EmptyString EmptyString eq_refl).
    apply any_case_nil. }
  split; [exact Hyes|].
  destruct (@debug_override_replaces_error_record Sample.textwrap Sample.logger
              Sample.failing "exit 3" None None None Bash.shell true None
              Sample.debugging Sample.started true Hyes)
    as [p [w' [Hinit Hwait]]].
  exists p, w'. split; [exact Hinit|].
  assert (Hp : fst (Process.in_progress p Sample.started) = Return true).
  { rewrite init_new_process in Hinit. injection Hinit as <- _. reflexivity. }
  split; [exact Hp|]. exact (proj1 (Hwait Hp)).
Defined.

(** ** Powershell *)

Lemma count_char_app (c : ascii) (a b : string) :
  count_char c (a ++ b) = count_char c a + count_char c b.
Proof.
  induction a as [|x a IH]; [reflexivity|]. cbn [append count_char]. rewrite IH. lia.
Qed.

Lemma count_sq_escape_dq (s : string) :
  count_char SQ (replace_char DQ (String BSLASH (String DQ EmptyString)) s)
    = count_char SQ s.
Proof.
  induction s as [|a s IH]; [reflexivity|].
  cbn [replace_char]. destruct (Ascii.eqb a DQ) eqn:E.
  - apply Ascii.eqb_eq in E. subst a. cbn [append count_char]. rewrite IH. reflexivity.
  - cbn [count_char]. now rewrite IH.
Qed.

Lemma count_sq_double (s : string) :
  count_char SQ (replace_char SQ "''" s) = 2 * count_char SQ s.
Proof.
  induction s as [|a s IH]; [reflexivity|].
  cbn [replace_char count_char]. destruct (Ascii.eqb a SQ) eqn:E.
  - cbn [append count_char]. rewrite IH. cbn. lia.
  - cbn [count_char]. rewrite E, IH. lia.
Qed.

Lemma dq_escaped_replace (s : string) (after_backslash : bool) :
  dq_escaped after_backslash
    (replace_char DQ (String BSLASH (String DQ EmptyString)) s) = true.
Proof.
  revert after_backslash. induction s as [|a s IH]; intros b; [reflexivity|].
  cbn [replace_char]. destruct (Ascii.eqb a DQ) eqn:E.
  - cbn [append dq_escaped].
    replace (Ascii.eqb BSLASH DQ) with false by reflexivity.
    replace (Ascii.eqb BSLASH BSLASH) with true by reflexivity.
    replace (Ascii.eqb DQ DQ) with true by reflexivity.
    cbn [andb]. apply IH.
  - cbn [dq_escaped]. rewrite E. apply IH.
Qed.

(** X9: [Powershell._escape_quotes] doubles every single quote and leaves no
    double quote without a backslash before it, so the command line of
    [Powershell.build_command_line] holds an even number of single quotes. *)
Theorem powershell_quotes_escaped (script : string) (cwd : option string) (env : Dict) :
  (forall command,
      count_char SQ (Powershell._escape_quotes command) = 2 * count_char SQ command
      /\ dq_escaped false (Powershell._escape_quotes command) = true)
  /\ Nat.even (count_char SQ (Powershell.build_command_line script cwd env)) = true.
Proof.
  assert (H : forall command,
             count_char SQ (Powershell._escape_quotes command)
             = 2 * count_char SQ command).
  { intros command. unfold Powershell._escape_quotes.
    now rewrite count_sq_escape_dq, count_sq_double. }
  split.
  - intros command. split; [apply H | apply dq_escaped_replace].
  - unfold Powershell.build_command_line.
    rewrite !count_char_app, H.
    change (count_char SQ Powershell.shell_command) with 0.
    change (count_char SQ " '") with 1. change (count_char SQ "'") with 1.
    replace (0 + (1 + (2 * count_char SQ (Powershell._add_cwd_and_env script cwd env) + 1)))
      with (2 * (1 + count_char SQ (Powershell._add_cwd_and_env script cwd env)))
      by lia.
    rewrite Nat.even_mul. reflexivity.
Qed.

(** ** Connection: running commands *)

Lemma phase_started (pid : nat) (ops : list TransportOp) (command_line : string)
      (input : option string) :
  Process.phase pid (ops ++ [OpStart pid command_line input])%list = RUNNING.
Proof.
  unfold Process.phase. rewrite fold_left_app. cbn [fold_left].
  now rewrite Nat.eqb_refl.
Qed.

Section RunProperties.
Context {tw : Textwrap} {lg : Logger} {tr : Transport}.

Lemma in_progress_after_run (p : Process.t) (w : World) :
  fst (Process.in_progress p (after_run p w)) = Return true.
Proof.
  unfold Process.in_progress, bind, asked, ret, after_run. cbn [fst transport].
  now rewrite phase_started.
Qed.

Lemma connect_outcome (c : Connection.t) (w : World) :
  (exists w1, Connection.connect c w = (Return tt, w1)
              /\ genid w1 = genid w /\ environ w1 = environ w /\ log w1 = log w)
  \/ (exists msg, Connection.connect c w = (Raise (ConnectionError msg), w)).
Proof.
  unfold Connection.connect, Connection.connected, bind, asked, ret, ask, raise.
  match goal with
  | |- context [fold_left ?f (transport w) false] =>
      destruct (fold_left f (transport w) false)
  end.
  - left. eexists. repeat split.
  - destruct (reachable (Connection.conn_id c)).
    + left. eexists. repeat split.
    + right. eexists. reflexivity.
Qed.

Lemma run_string (c : Connection.t) (s : string) (cwd : option string)
      (env : option Dict) (input : option string) (level : ProcessLogLevel)
      (raise_on_error : bool) (w : World) :
  Connection.run c (ArgVal (PyStr s)) cwd env input level raise_on_error w
    = match Connection.connect c w with
      | (Return _, w1) =>
          let p := new_process w1 s cwd env input (Connection.shell c) level true None in
          Process.wait p raise_on_error (after_run p (after_init w1))
      | (Raise e, w1) => (Raise e, w1)
      end.
Proof.
  unfold Connection.run. cbn [as_str]. unfold bind at 1.
  destruct (Connection.connect c w) as [[u|e] w1]; [|reflexivity].
  unfold Connection.create_process, bind at 1. rewrite init_new_process.
  unfold bind at 1. rewrite process_run_eq. reflexivity.
Qed.

Lemma async_run_string (c : Connection.t) (s : string) (cwd : option string)
      (env : option Dict) (input : option string) (level : ProcessLogLevel)
      (w : World) :
  Connection.async_run c (ArgVal (PyStr s)) cwd env input level w
    = match Connection.connect c w with
      | (Return _, w1) =>
          let p := new_process w1 s cwd env input (Connection.shell c) level false None in
          (Return p, after_run p (after_init w1))
      | (Raise e, w1) => (Raise e, w1)
      end.
Proof.
  unfold Connection.async_run. cbn [as_str]. unfold bind at 1.
  destruct (Connection.connect c w) as [[u|e] w1]; [|reflexivity].
  unfold Connection.create_process, bind at 1. rewrite init_new_process.
  unfold bind at 1. rewrite process_run_eq. reflexivity.
Qed.

(** X10: for a command string, [run] and [async_run] followed by [wait]
    have the same outcome (the same result returned or the same exception
    raised), ask the same of the transport and draw the same process id;
    they differ only in what they log. *)
Theorem run_is_async_run_then_wait
        (c : Connection.t) (s : string) (cwd : option string) (env : option Dict)
        (input : option string) (level : ProcessLogLevel) (raise_on_error : bool)
        (w : World) :
  let blocking := Connection.run c (ArgVal (PyStr s)) cwd env input level raise_on_error w in
  let stepwise :=
    (p <- Connection.async_run c (ArgVal (PyStr s)) cwd env input level ;;
     Process.wait p raise_on_error) w in
  fst blocking = fst stepwise
  /\ transport (snd blocking) = transport (snd stepwise)
  /\ genid (snd blocking) = genid (snd stepwise).
Proof.
  intros blocking stepwise. subst blocking stepwise.
  rewrite run_string. unfold bind. rewrite async_run_string.
  destruct (Connection.connect c w) as [[u|e] w1]; [|repeat split].
  cbv zeta.
  rewrite !(wait_running _ raise_on_error _ (in_progress_after_run _ _)).
  repeat split.
Qed.

(** X11: when [connect] raises, [run], [async_run], [exec] and [async_exec]
    raise the same exception and do nothing after it: no process is created
    and the world is the one [connect] left. *)
Theorem connect_failure_propagates
        (c : Connection.t) (s : string) (argv : list PyVal) (cwd : option string)
        (env : option Dict) (input : option string) (level : ProcessLogLevel)
        (raise_on_error : bool) (w : World) (e : Exn) :
  fst (Connection.connect c w) = Raise e ->
  Connection.run c (ArgVal (PyStr s)) cwd env input level raise_on_error w
    = (Raise e, snd (Connection.connect c w))
  /\ Connection.async_run c (ArgVal (PyStr s)) cwd env input level w
     = (Raise e, snd (Connection.connect c w))
  /\ Connection.exec c (ArgList argv) cwd env input level raise_on_error w
     = (Raise e, snd (Connection.connect c w))
  /\ Connection.async_exec c (ArgList argv) cwd env input level w
     = (Raise e, snd (Connection.connect c w)).
Proof.
  intros H. unfold Connection.exec, Connection.async_exec. cbn [as_list].
  rewrite !run_string, !async_run_string.
  destruct (Connection.connect c w) as [[u|e'] w1]; [discriminate H|].
  cbn in H. injection H as ->. repeat split.
Qed.

(** X12: on a connection that connects, [run] with a command string draws
    exactly one process id, asks the transport to start the command line its
    shell builds from the stripped command and then to wait for it, writes
    the records of [Process.run] followed by those of [Process.wait], and
    raises the captured error exactly when [raise_on_error] is true and the
    return code is not 0; otherwise it returns the result. *)
Theorem run_starts_and_waits_once
        (c : Connection.t) (s : string) (cwd : option string) (env : option Dict)
        (input : option string) (level : ProcessLogLevel) (raise_on_error : bool)
        (w : World) :
  fst (Connection.connect c w) = Return tt ->
  let w1 := snd (Connection.connect c w) in
  let p := new_process w1 s cwd env input (Connection.shell c) level true None in
  let out := Connection.run c (ArgVal (PyStr s)) cwd env input level raise_on_error w in
  genid (snd out) = S (genid w1)
  /\ Process.id p = genid w1 + 1
  /\ transport (snd out)
     = (transport w1
          ++ [OpStart (Process.id p)
                      (build_command_line (Connection.shell c) (strip (dedent s)) cwd
                         (match env with Some e => e | None => [] end))
                      input;
              OpWait (Process.id p)])%list
  /\ log (snd out) = (log w1 ++ run_records p ++ wait_records p (result_of p))%list
  /\ fst out
     = (if raise_on_error && negb (Z.eqb (ProcessResult.rc (result_of p)) 0)
        then Raise (fst (ProcessResult.throw (result_of p)))
        else Return (result_of p))
  /\ exists e, ProcessResult.error (result_of p) = Some e
               /\ fst (ProcessResult.throw (result_of p)) = ProcessErrorExn e
               /\ ProcessError.id e = Process.id p.
Proof.
  intros H w1 p out. subst out. rewrite run_string.
  subst p w1.
  destruct (Connection.connect c w) as [[[]|e'] w1]; [|discriminate H].
  cbn [snd]. cbv zeta.
  rewrite (wait_running _ raise_on_error _ (in_progress_after_run _ _)).
  cbn [fst snd genid transport log after_run after_init].
  rewrite <- !app_assoc.
  repeat split.
  eexists. unfold ProcessResult.throw. rewrite result_of_error.
  repeat split.
Qed.

(** X13: with [raise_on_error=False], [run], [exec], [expect] and
    [expect_nobody] never raise a [ProcessError], whatever the return code
    of the command. *)
Theorem no_process_error_when_not_requested
        (c : Connection.t) (arg : PyArg) (script : string) (verbose : bool)
        (cwd : option string) (env : option Dict) (input : option string)
        (level : ProcessLogLevel) (w : World) (e : ProcessError.t) :
  fst (Connection.run c arg cwd env input level false w) <> Raise (ProcessErrorExn e)
  /\ fst (Connection.exec c arg cwd env input level false w) <> Raise (ProcessErrorExn e)
  /\ fst (Connection.expect c script verbose false w) <> Raise (ProcessErrorExn e)
  /\ fst (Connection.expect_nobody c script verbose false w) <> Raise (ProcessErrorExn e).
Proof.
  assert (Hrun : forall s cwd env input level,
             fst (Connection.run c (ArgVal (PyStr s)) cwd env input level false w)
             <> Raise (ProcessErrorExn e)).
  { intros s cwd0 env0 input0 level0. rewrite run_string.
    destruct (connect_outcome c w) as [[w1 [Hc _]]|[msg Hc]]; rewrite Hc.
    - cbv zeta.
      rewrite (wait_running _ false _ (in_progress_after_run _ _)).
      cbn [andb fst]. discriminate.
    - cbn [fst]. discriminate. }
  assert (Hany : forall a cwd env input level,
             fst (Connection.run c a cwd env input level false w)
             <> Raise (ProcessErrorExn e)).
  { intros a cwd0 env0 input0 level0.
    destruct a as [[| | |s|]|l]; try apply Hrun; cbn; discriminate. }
  split; [apply Hany|]. split; [|split].
  - unfold Connection.exec. destruct (as_list arg); [apply Hrun | cbn; discriminate].
  - unfold Connection.expect, Connection.exec. cbn [as_list]. apply Hrun.
  - unfold Connection.expect_nobody. apply Hrun.
Qed.

End RunProperties.

Lemma connect_failure_propagates_sample :
  fst (@Connection.connect Fixtures.unreachable Sample.conn Sample.boot)
  = Raise (ConnectionError "Unable to connect to the host.")
  /\ @Connection.run Sample.textwrap Sample.logger Fixtures.unreachable Sample.conn
       (ArgVal (PyStr "ls")) None None None Full true Sample.boot
     = (Raise (ConnectionError "Unable to connect to the host."), Sample.boot).
Proof.
  split; [reflexivity|].
  exact (proj1 (@connect_failure_propagates Sample.textwrap Sample.logger
                  Fixtures.unreachable Sample.conn "ls" [] None None None Full true
                  Sample.boot (ConnectionError "Unable to connect to the host.")
                  eq_refl)).
Defined.

Lemma run_starts_and_waits_once_sample :
  fst (@Connection.connect Sample.failing Sample.conn Sample.boot) = Return tt
  /\ genid (snd (@Connection.run Sample.textwrap Sample.logger Sample.failing
                   Sample.conn (ArgVal (PyStr "exit 3")) None None None Full false
                   Sample.boot)) = 1
  /\ transport (snd (@Connection.run Sample.textwrap Sample.logger Sample.failing
                       Sample.conn (ArgVal (PyStr "exit 3")) None None None Full false
                       Sample.boot))
     = [OpConnect 1; OpStart 1 "/usr/bin/bash -c 'exit 3'" None; OpWait 1].
Proof.
  split; [reflexivity|].
  destruct (@run_starts_and_waits_once Sample.textwrap Sample.logger Sample.failing
              Sample.conn "exit 3" None None None Full false Sample.boot eq_refl)
    as [Hgenid [_ [Htransport _]]].
  split; [exact Hgenid | exact Htransport].
Defined.

(** ** From the constructor to the remote shell *)

Section EndToEnd.
Context {tw : Textwrap}.


End EndToEnd.

